(** * pycamv: modification resolution and combinatorial enumeration

    A shallow embedding of the peptide-modification core of pycamv
    ([pycamv/search.py], [pycamv/discoverer.py], [pycamv/regexes.py]) and
    the properties of it that the specification states.

    Python values are modelled as follows: [int] as [Z], [str] as
    [string], [float] as a primitive binary64 float, a tuple or list of
    [str] as [Py.pyseq] (the two are kept apart because [==] tells them
    apart), [None]-or-value as [option], a raised exception as the
    [Raise] branch of [Py.result].  A [string] holds one character of the
    [str] per element, which is exact on ASCII text; the digit class of
    the patterns is the ASCII one, so what is stated of the groups of a
    match is stated for ASCII text. *)

From Stdlib Require Import ZArith List String Ascii Bool Lia.
From Stdlib Require Import Sorted Permutation PrimFloat.
Import ListNotations.

Local Open Scope Z_scope.
Local Open Scope bool_scope.

(* ================================================================= *)
(** ** Python primitives used by the sources *)

Module Py.

(** The exceptions the modelled code can raise. *)
Inductive exn : Type :=
| AssertionError
| AttributeError
| IndexError
| Exception (msg : string).

Inductive result (A : Type) : Type :=
| Ok (a : A)
| Raise (e : exn).

Arguments Ok {A} a.
Arguments Raise {A} e.

Definition bind {A B : Type} (m : result A) (k : A -> result B) : result B :=
  match m with
  | Ok a => k a
  | Raise e => Raise e
  end.

(** [for x in xs: acc = body(acc, x)] where the body may raise. *)
Fixpoint for_each {A S : Type} (body : S -> A -> result S) (xs : list A) (acc : S)
  : result S :=
  match xs with
  | [] => Ok acc
  | x :: xs' => bind (body acc x) (for_each body xs')
  end.

(** [[f(x) for x in xs]] where [f] may raise. *)
Fixpoint comprehension {A B : Type} (f : A -> result B) (xs : list A)
  : result (list B) :=
  match xs with
  | [] => Ok []
  | x :: xs' =>
      bind (f x) (fun y => bind (comprehension f xs') (fun ys => Ok (y :: ys)))
  end.

(** *** [str] *)

(** [sub in s]: substring containment. *)
Fixpoint str_in (sub s : string) : bool :=
  String.prefix sub s
  || match s with
     | EmptyString => false
     | String _ s' => str_in sub s'
     end.

(** Occurrences of a non-empty [sub] in [s], left to right, not
    overlapping: after a hit the scan resumes behind it ([skip] counts the
    characters of the hit still to be passed over). *)
Fixpoint count_from (sub : string) (skip : nat) (s : string) : Z :=
  match s with
  | EmptyString => 0
  | String _ s' =>
      match skip with
      | S k => count_from sub k s'
      | O =>
          if String.prefix sub s
          then 1 + count_from sub (String.length sub - 1) s'
          else count_from sub 0 s'
      end
  end.

(** [s.count(sub)]. *)
Definition str_count (s sub : string) : Z :=
  if String.eqb sub EmptyString
  then Z.of_nat (String.length s) + 1
  else count_from sub 0 s.

(** [s[i]] for an [int] index: negative indices count from the end. *)
Definition str_getitem (s : string) (i : Z) : result string :=
  let n := Z.of_nat (String.length s) in
  let j := if i <? 0 then i + n else i in
  if (j <? 0) || (n <=? j) then Raise IndexError
  else match String.get (Z.to_nat j) s with
       | Some c => Ok (String c EmptyString)
       | None => Raise IndexError
       end.

(** [tuple(s)]: the characters of [s], each a one-character [str]. *)
Fixpoint str_chars (s : string) : list string :=
  match s with
  | EmptyString => []
  | String c s' => String c EmptyString :: str_chars s'
  end.

(** *** Sequences of [str]: tuples and lists *)

Inductive pyseq : Type :=
| PyTuple (items : list string)
| PyList (items : list string).

Definition items (q : pyseq) : list string :=
  match q with PyTuple l | PyList l => l end.

Definition is_tuple (q : pyseq) : bool :=
  match q with PyTuple _ => true | PyList _ => false end.

Definition list_str_eqb (a b : list string) : bool :=
  if list_eq_dec string_dec a b then true else false.

(** [a == b]: a tuple never equals a list. *)
Definition seq_eq (a b : pyseq) : bool :=
  match a, b with
  | PyTuple x, PyTuple y => list_str_eqb x y
  | PyList x, PyList y => list_str_eqb x y
  | _, _ => false
  end.

(** [sum(...)] over [int]s. *)
Definition sum (l : list Z) : Z := fold_left Z.add l 0.

End Py.

Import Py.

Declare Scope py_scope.
Notation "x <- m ;; k" := (Py.bind m (fun x => k))
  (at level 61, m at next level, right associativity) : py_scope.
Notation "' p <- m ;; k" := (Py.bind m (fun p => k))
  (at level 61, p pattern, m at next level, right associativity) : py_scope.
Local Open Scope py_scope.

(* ================================================================= *)
(** ** [pycamv.utils] *)

Module Utils.

(** Pascal's rule on naturals. *)
Fixpoint binom (n k : nat) : nat :=
  match n, k with
  | _, O => 1
  | O, S _ => 0
  | S n', S k' => binom n' k' + binom n' k
  end.

(** Modelled from the spec: [nCr] of [pycamv/utils.py], which is not among
    the sources.  The specification gives it as the binomial coefficient
    "the number of ways to choose [k] unordered sites out of [n]
    candidates", [0] if [k > n] or [n < 0], [1] if [k == 0].  A negative
    [k] with [0 <= n] is not covered by the specification; there is no way
    to choose a negative number of sites, so the model answers [0]. *)
Definition nCr (n k : Z) : Z :=
  if (k >? n) || (n <? 0) then 0
  else if k =? 0 then 1
  else if k <? 0 then 0
  else Z.of_nat (binom (Z.to_nat n) (Z.to_nat k)).

End Utils.

(* ================================================================= *)
(** ** [pycamv.search] *)

Module Search.

(** An aggregated modification: the tuple [(count, abbrev, letters)]. *)
Definition mod_entry : Type := (Z * string * pyseq)%type.

Definition count_of (o : mod_entry) : Z := fst (fst o).

(** [_check_mods]: the [isinstance] tests on [count], [abbrev] and the
    elements of [letters] hold by typing; what is left is
    [isinstance(letters, tuple)]. *)
Definition _check_mods (mods : list mod_entry) : bool :=
  forallb (fun '(count, abbrev, letters) => is_tuple letters) mods.

(** The rebinding of [letters] at the head of the loop body of
    [_calc_num_comb]. *)
Definition effective_letters (mod_ : string) (letters : pyseq) : pyseq :=
  if String.eqb mod_ "Phospho" && seq_eq letters (PyList ["S"; "T"]%string)
  then PyList ["S"; "T"; "Y"]%string
  else letters.

(** [sum(self.pep_seq.count(i) for i in letters)]. *)
Definition site_count (pep_seq : string) (letters : pyseq) : Z :=
  Py.sum (map (str_count pep_seq) (items letters)).

(** The inner loop of [_calc_num_comb]: sites taken up by another
    modification are subtracted. *)
Definition subtract_competitors (pep_var_mods : list mod_entry)
    (mod_ : string) (letters : pyseq) (potential_mod_sites : Z) : Z :=
  fold_left
    (fun potential_mod_sites '(o_count, o_mod, o_letters) =>
       if seq_eq o_letters letters && negb (String.eqb o_mod mod_)
       then potential_mod_sites - o_count
       else potential_mod_sites)
    pep_var_mods potential_mod_sites.

(** [potential_mod_sites] as handed to [nCr] for one entry. *)
Definition potential_mod_sites (pep_seq : string) (pep_var_mods : list mod_entry)
    (mod_ : string) (letters : pyseq) : Z :=
  let letters := effective_letters mod_ letters in
  subtract_competitors pep_var_mods mod_ letters (site_count pep_seq letters).

(** The outer loop of [_calc_num_comb], over a suffix [todo] of
    [pep_var_mods]. *)
Definition calc_loop (pep_seq : string) (pep_var_mods todo : list mod_entry)
    (num_comb : Z) : Z :=
  fold_left
    (fun num_comb '(count, mod_, letters) =>
       num_comb * Utils.nCr (potential_mod_sites pep_seq pep_var_mods mod_ letters) count)
    todo num_comb.

Definition _calc_num_comb (pep_seq : string) (pep_var_mods : list mod_entry) : Z :=
  calc_loop pep_seq pep_var_mods pep_var_mods 1.

Record PeptideQuery : Type := mkPeptideQuery {
  gi : string;
  protein : string;
  query : Z;
  filename : string;
  pep_exp_mz : float;
  pep_exp_z : Z;
  pep_seq : string;
  pep_var_mods : list mod_entry;
  pep_fixed_mods : list mod_entry;
  scan : Z;
  num_comb : Z
}.

(** [PeptideQuery.__init__]. *)
Definition new_PeptideQuery (gi protein : string) (query : Z) (filename : string)
    (pep_exp_mz : float) (pep_exp_z : Z) (pep_seq : string)
    (pep_var_mods pep_fixed_mods : list mod_entry) (scan : Z)
  : result PeptideQuery :=
  if negb (_check_mods pep_var_mods) then Raise AssertionError
  else if negb (_check_mods pep_fixed_mods) then Raise AssertionError
  else Ok (mkPeptideQuery gi protein query filename pep_exp_mz pep_exp_z pep_seq
             pep_var_mods pep_fixed_mods scan
             (_calc_num_comb pep_seq pep_var_mods)).

Definition identity : Type := (string * Z * string * Z)%type.

Definition _unique_tuple (self : PeptideQuery) : identity :=
  (gi self, query self, pep_seq self, scan self).

(** [==] on the tuples returned by [_unique_tuple]. *)
Definition identity_eqb (a b : identity) : bool :=
  let '(g1, q1, s1, n1) := a in
  let '(g2, q2, s2, n2) := b in
  String.eqb g1 g2 && (q1 =? q2) && String.eqb s1 s2 && (n1 =? n2).

Section Hash.

(** Python's [hash] on identity tuples: some function of the tuple's
    value. *)
Variable hash : identity -> Z.

Definition __hash__ (self : PeptideQuery) : Z := hash (_unique_tuple self).

End Hash.

(** [PeptideQuery.__eq__] with [other] a [PeptideQuery] (the [isinstance]
    test holds by typing). *)
Definition __eq__ (self other : PeptideQuery) : bool :=
  identity_eqb (_unique_tuple self) (_unique_tuple other).

(** [_parse_letters]. *)
Definition _parse_letters (letters : string) : pyseq :=
  if String.eqb letters "N-term" || String.eqb letters "C-term"
  then PyTuple [letters]
  else PyTuple (str_chars letters).

(** The property [pep_mods]. *)
Definition pep_mods (self : PeptideQuery) : list mod_entry :=
  pep_var_mods self ++ pep_fixed_mods self.

(** [_count_instances]: [list.count] on the residues of the sequence
    between the two terminus tokens. *)
Definition _count_instances (pep_seq : string) (letters : pyseq) : Z :=
  Py.sum
    (map (fun letter =>
            Z.of_nat
              (count_occ string_dec
                 (["N-term"%string] ++ str_chars pep_seq ++ ["C-term"%string])
                 letter))
       (items letters)).

End Search.

(* ================================================================= *)
(** ** Regular expressions ([re]) *)

(** The fragment of Python's [re] that the patterns of [pycamv/regexes.py]
    use, with the backtracking order of the library: greedy repetition
    tries the longest run first, an optional group is tried present before
    absent, and the first complete match wins. *)
Module Re.

(** One-character matchers. *)
Inductive cls : Type :=
| Any                                   (* [.]: anything but a newline *)
| Chr (c : ascii)                       (* a literal character *)
| Ranges (rs : list (ascii * ascii)).   (* a bracket set such as [[A-Za-z_]] *)

Inductive re : Type :=
| Eps
| One (c : cls)
| Plus (c : cls)                        (* [c+] *)
| Star (c : cls)                        (* [c*] *)
| Cat (r1 r2 : re)
| Opt (r : re)                          (* [(...)?] *)
| Group (n : nat) (r : re)              (* the [n]-th parenthesis *)
| Bol                                   (* [^] *)
| Eol.                                  (* [$] *)

Definition newline : ascii := ascii_of_nat 10.

Definition in_range (a : ascii) (r : ascii * ascii) : bool :=
  (N_of_ascii (fst r) <=? N_of_ascii a)%N && (N_of_ascii a <=? N_of_ascii (snd r))%N.

Definition accepts (c : cls) (a : ascii) : bool :=
  match c with
  | Any => negb (Ascii.eqb a newline)
  | Chr x => Ascii.eqb a x
  | Ranges rs => existsb (in_range a) rs
  end.

(** [\d], on ASCII text. *)
Definition digit : cls := Ranges [("0", "9")]%char.

(** A run of literal characters. *)
Fixpoint lit (s : string) : re :=
  match s with
  | EmptyString => Eps
  | String c s' => Cat (One (Chr c)) (lit s')
  end.

(** The groups matched so far; [None] for a group that took no part. *)
Definition captures : Type := nat -> option string.

Definition no_captures : captures := fun _ => None.

Definition set_group (n : nat) (v : string) (caps : captures) : captures :=
  fun i => if Nat.eqb i n then Some v else caps i.

Section Run.

Variable R : Type.

(** [c+] from [s]: take a character, try to take more, and only then hand
    over to the continuation. *)
Fixpoint greedy (c : cls) (k : string -> nat -> option R) (s : string) (pos : nat)
  : option R :=
  match s with
  | EmptyString => None
  | String a s' =>
      if accepts c a
      then match greedy c k s' (S pos) with
           | Some m => Some m
           | None => k s' (S pos)
           end
      else None
  end.

(** Match [r] at offset [pos], where [s] is what is left of the subject,
    then continue with [k]; [None] makes the caller backtrack. *)
Fixpoint run (r : re) (s : string) (pos : nat) (caps : captures)
    (k : string -> nat -> captures -> option R) : option R :=
  match r with
  | Eps => k s pos caps
  | One c =>
      match s with
      | String a s' => if accepts c a then k s' (S pos) caps else None
      | EmptyString => None
      end
  | Plus c => greedy c (fun s' pos' => k s' pos' caps) s pos
  | Star c =>
      match greedy c (fun s' pos' => k s' pos' caps) s pos with
      | Some m => Some m
      | None => k s pos caps
      end
  | Cat r1 r2 => run r1 s pos caps (fun s' pos' caps' => run r2 s' pos' caps' k)
  | Opt r1 =>
      match run r1 s pos caps k with
      | Some m => Some m
      | None => k s pos caps
      end
  | Group n r1 =>
      run r1 s pos caps
        (fun s' pos' caps' => k s' pos' (set_group n (substring 0 (pos' - pos) s) caps'))
  | Bol => if Nat.eqb pos 0 then k s pos caps else None
  | Eol =>
      if String.eqb s EmptyString || String.eqb s (String newline EmptyString)
      then k s pos caps else None
  end.

End Run.

(** [pattern.match(s)]: anchored at the start of [s] only. *)
Definition re_match (r : re) (s : string) : option captures :=
  run captures r s 0 no_captures (fun _ _ caps => Some caps).

(** [m.group(n)] for a group that took part in the match. *)
Definition group (m : captures) (n : nat) : string :=
  match m n with Some v => v | None => EmptyString end.

End Re.

(* ================================================================= *)
(** ** [pycamv.regexes] *)

Module Regexes.

Import Re.

(** The pattern "((\d+) )?(.+) \((.+)\)". *)
Definition RE_DYN_MODS : re :=
  Cat (Opt (Group 1 (Cat (Group 2 (Plus digit)) (One (Chr " ")))))
    (Cat (Group 3 (Plus Any))
       (Cat (lit " (")
          (Cat (Group 4 (Plus Any))
             (lit ")")))).

(** The pattern "^>sp\|[\dA-Za-z]+\|([\dA-Za-z_]+) (R)$", where R is a
    dot under a star: the rest of the line. *)
Definition RE_DESCRIPTION : re :=
  Cat Bol
    (Cat (lit ">sp|")
       (Cat (Plus (Ranges [("0", "9"); ("A", "Z"); ("a", "z")]%char))
          (Cat (lit "|")
             (Cat (Group 1 (Plus (Ranges [("0", "9"); ("A", "Z"); ("a", "z"); ("_", "_")]%char)))
                (Cat (lit " ")
                   (Cat (Group 2 (Star Any)) Eol)))))).

End Regexes.

(* ================================================================= *)
(** ** [collections.Counter] and [sorted] *)

Module Collections.

Section Counter.

Variable K : Type.
Variable K_eqb : K -> K -> bool.

(** [c[elem] = c.get(elem, 0) + 1] on a dict kept in insertion order. *)
Fixpoint incr (elem : K) (c : list (K * Z)) : list (K * Z) :=
  match c with
  | [] => [(elem, 1)]
  | (k, n) :: c' =>
      if K_eqb k elem then (k, n + 1) :: c' else (k, n) :: incr elem c'
  end.

(** [Counter(iterable).items()] *)
Definition Counter (iterable : list K) : list (K * Z) :=
  fold_left (fun c elem => incr elem c) iterable [].

End Counter.

Section Sorted.

Variable A : Type.
Variable key : A -> Z.

(** [x] goes in front of the first element with a key not below its own,
    so that equal keys keep the order of the input. *)
Fixpoint insert (x : A) (l : list A) : list A :=
  match l with
  | [] => [x]
  | y :: l' => if key x <=? key y then x :: l else y :: insert x l'
  end.

(** [sorted(l, key=key)]: ascending and stable. *)
Fixpoint sorted (l : list A) : list A :=
  match l with
  | [] => []
  | x :: l' => insert x (sorted l')
  end.

End Sorted.

Arguments incr {K} K_eqb elem c.
Arguments Counter {K} K_eqb iterable.
Arguments insert {A} key x l.
Arguments sorted {A} key l.

End Collections.

(* ================================================================= *)
(** ** [pycamv.discoverer] *)

Module Discoverer.

Import Search.

(** A declared modification as the pools hold it: the pair
    [(name, site-list)] that [group(3, 4)] returns. *)
Definition pot_mod : Type := (string * string)%type.

Definition pot_mod_eqb (a b : pot_mod) : bool :=
  String.eqb (fst a) (fst b) && String.eqb (snd a) (snd b).

(** [_parse_letters] (the copy in [discoverer.py]). *)
Definition _parse_letters (letters : string) : pyseq :=
  if String.eqb letters "N-term" || String.eqb letters "C-term"
  then PyTuple [letters]
  else PyTuple (str_chars letters).

(** [_find_mod]: [letter in pot_mod[1]] is a test on the site-list
    string. *)
Fixpoint _find_mod (abbrev letter : string) (pot_mods : list pot_mod)
  : option pot_mod :=
  match pot_mods with
  | [] => None
  | pot_mod :: rest =>
      if String.eqb (fst pot_mod) abbrev && str_in letter (snd pot_mod)
      then Some pot_mod
      else _find_mod abbrev letter rest
  end.

(** [_count_mods] *)
Definition _count_mods (mod_list : list pot_mod) : list mod_entry :=
  map (fun '((abbrev, letters), count) => (count, abbrev, _parse_letters letters))
    (Collections.Counter pot_mod_eqb mod_list).

(** One row of the peptide query of [_get_peptide_queries]. *)
Record row : Type := mkRow {
  pep_id : Z;
  full_prot_desc : string;
  row_pep_seq : string;
  row_scan : Z;
  exp_mz : float;
  exp_z : Z;
  row_filename : string
}.

(** What the SQL statements return from the result file. *)
Record cursor : Type := mkCursor {
  (** the cursor object itself, which [_get_peptide_queries] passes on as
      [query] *)
  handle : Z;
  (** [(ModificationName, Position)] per peptide *)
  aa_mods_of : Z -> list (string * Z);
  (** [(ModificationName, PositionType)] per peptide *)
  term_mods_of : Z -> list (string * Z);
  peptide_rows : list row
}.

(** The modifications resolved so far: [(pep_var_mods, pep_fixed_mods)]. *)
Definition resolved : Type := (list pot_mod * list pot_mod)%type.

Definition unexpected (letter abbrev : string) : exn :=
  Exception ("Unexpected modification: " ++ letter ++ " " ++ abbrev)%string.

(** The body shared by the two loops of [_get_pep_mods], from
    [mod = _find_mod(abbrev, letter, var_mods)] on. *)
Definition resolve_hit (var_mods fixed_mods : list pot_mod)
    (abbrev letter : string) (acc : resolved) : result resolved :=
  let '(pep_var_mods, pep_fixed_mods) := acc in
  match _find_mod abbrev letter var_mods with
  | Some mod_ => Ok (pep_var_mods ++ [mod_], pep_fixed_mods)
  | None =>
      match _find_mod abbrev letter fixed_mods with
      | Some mod_ => Ok (pep_var_mods, pep_fixed_mods ++ [mod_])
      | None => Raise (unexpected letter abbrev)
      end
  end.

Definition aa_step (pep_seq : string) (var_mods fixed_mods : list pot_mod)
    (acc : resolved) (hit : string * Z) : result resolved :=
  let '(abbrev, pos) := hit in
  letter <- str_getitem pep_seq pos ;;
  resolve_hit var_mods fixed_mods abbrev letter acc.

Definition term_letter (pos_type : Z) : string :=
  if pos_type =? 1 then "N-term"%string else "C-term"%string.

Definition term_step (var_mods fixed_mods : list pot_mod)
    (acc : resolved) (hit : string * Z) : result resolved :=
  let '(abbrev, pos_type) := hit in
  resolve_hit var_mods fixed_mods abbrev (term_letter pos_type) acc.

(** The two loops of [_get_pep_mods], before [_count_mods]. *)
Definition resolve_hits (pep_seq : string) (var_mods fixed_mods : list pot_mod)
    (aa_mods term_mods : list (string * Z)) : result resolved :=
  acc <- for_each (aa_step pep_seq var_mods fixed_mods) aa_mods ([], []) ;;
  for_each (term_step var_mods fixed_mods) term_mods acc.

Definition _get_pep_mods (c : cursor) (pep_id : Z) (pep_seq : string)
    (var_mods fixed_mods : list pot_mod)
  : result (list mod_entry * list mod_entry) :=
  '(pep_var_mods, pep_fixed_mods) <-
     resolve_hits pep_seq var_mods fixed_mods (aa_mods_of c pep_id) (term_mods_of c pep_id) ;;
  Ok (_count_mods pep_var_mods, _count_mods pep_fixed_mods).

(** [search.RE_DYN_MODS.match(i).group(3, 4)]: [match] gives [None] when
    the pattern does not apply, and [None] has no [group]. *)
Definition parse_declaration (i : string) : result pot_mod :=
  match Re.re_match Regexes.RE_DYN_MODS i with
  | None => Raise AttributeError
  | Some m => Ok (Re.group m 3, Re.group m 4)
  end.

(** [RE_DESCRIPTION.match(full_prot_desc).group(1, 2)] *)
Definition parse_description (full_prot_desc : string) : result (string * string) :=
  match Re.re_match Regexes.RE_DESCRIPTION full_prot_desc with
  | None => Raise AttributeError
  | Some m => Ok (Re.group m 1, Re.group m 2)
  end.

(** The body of the loop over the peptide rows. *)
Definition row_step (c : cursor) (var_mods fixed_mods : list pot_mod)
    (out : list PeptideQuery) (r : row) : result (list PeptideQuery) :=
  '(pep_var_mods, pep_fixed_mods) <-
     _get_pep_mods c (pep_id r) (row_pep_seq r) var_mods fixed_mods ;;
  '(accession, prot_desc) <- parse_description (full_prot_desc r) ;;
  q <- new_PeptideQuery accession prot_desc (handle c) (row_filename r)
         (exp_mz r) (exp_z r) (row_pep_seq r) pep_var_mods pep_fixed_mods (row_scan r) ;;
  Ok (out ++ [q]).

Definition _get_peptide_queries (c : cursor) (fixed_mods var_mods : list string)
  : result (list PeptideQuery) :=
  fixed_mods <- comprehension parse_declaration fixed_mods ;;
  var_mods <- comprehension parse_declaration var_mods ;;
  out <- for_each (row_step c var_mods fixed_mods) (peptide_rows c) [] ;;
  Ok (Collections.sorted scan out).

(** [_get_fixed_var_mods], on the [(ParameterName, ParameterValue)] rows
    of the processing parameters. *)
Definition _get_fixed_var_mods (parameters : list (string * string))
  : list string * list string :=
  fold_left
    (fun '(fixed_mods, var_mods) '(name, val) =>
       if String.prefix "StaticMod_" name then (fixed_mods ++ [val], var_mods)
       else if String.prefix "DynMod_" name then (fixed_mods, var_mods ++ [val])
       else (fixed_mods, var_mods))
    parameters ([], []).

(** A result file: the processing parameters and what the peptide
    statements return. *)
Record msf : Type := mkMsf {
  parameters : list (string * string);
  peptides : cursor
}.

(** [read_discoverer_msf] *)
Definition read_discoverer_msf (f : msf)
  : result (list string * list string * list PeptideQuery) :=
  let '(fixed_mods, var_mods) := _get_fixed_var_mods (parameters f) in
  out <- _get_peptide_queries (peptides f) fixed_mods var_mods ;;
  Ok (fixed_mods, var_mods, out).

End Discoverer.

(* ================================================================= *)
(** ** [pycamv.scans] *)

Module Scans.

Import Search.

(** The [scans] argument of the first conversion in [get_scan_data]:
    [sorted(set(pep_query.scan for pep_query in pep_queries))].  The set
    is enumerated here in the order of first occurrence; [sorted] makes
    the outcome the same for every enumeration. *)
Definition ms2_scans (pep_queries : list PeptideQuery) : list Z :=
  Collections.sorted (fun scan => scan) (nodup Z.eq_dec (map scan pep_queries)).

End Scans.

(* ================================================================= *)
(** ** The specification's reading of the enumerator *)

Module EnumeratorSpec.

Import Search.

(** Two collections of tokens hold the same tokens, in whatever order. *)
Definition same_set (a b : list string) : bool :=
  forallb (fun x => existsb (String.eqb x) b) a
  && forallb (fun x => existsb (String.eqb x) a) b.

(** Step a as the specification words it: the effective candidate-site
    set of an entry, the set S, T of a Phospho entry widened to S, T, Y. *)
Definition candidate_set (mod_ : string) (letters : pyseq) : list string :=
  if String.eqb mod_ "Phospho" && same_set (items letters) ["S"; "T"]%string
  then ["S"; "T"; "Y"]%string
  else items letters.

(** Step b as the specification words it: the occurrences in the sequence
    of every token of the set, a terminal token counting as 1. *)
Definition occurrences (pep_seq : string) (tokens : list string) : Z :=
  Py.sum
    (map (fun t => if String.eqb t "N-term" || String.eqb t "C-term"
                   then 1 else str_count pep_seq t)
       (nodup string_dec tokens)).

(** Step c as the specification words it: the other entry [o] has the
    same effective candidate-site set as the entry [(mod_, letters)] and
    another abbreviation. *)
Definition competes (mod_ : string) (letters : pyseq) (o : mod_entry) : bool :=
  let '(o_count, o_mod, o_letters) := o in
  same_set (candidate_set o_mod o_letters) (candidate_set mod_ letters)
  && negb (String.eqb o_mod mod_).

(** Steps b and c together: the available sites of an entry. *)
Definition spec_available (pep_seq : string) (pep_var_mods : list mod_entry)
    (mod_ : string) (letters : pyseq) : Z :=
  occurrences pep_seq (candidate_set mod_ letters)
  - Py.sum (map count_of (filter (competes mod_ letters) pep_var_mods)).

(** The test of the code's inner loop, on an entry whose residues are
    [letters]: the other entry [o] is declared on the very same tuple,
    the same residues in the same order, under another abbreviation. *)
Definition same_tuple_competes (mod_ : string) (letters : pyseq) (o : mod_entry)
  : bool :=
  seq_eq (snd o) letters && negb (String.eqb (snd (fst o)) mod_).

End EnumeratorSpec.

(* ================================================================= *)
(** ** The hits of a peptide, as the resolver sees them *)

Module ResolverSpec.

Import Discoverer.

(** An observed hit with its residue letter or terminus token
    determined: [(abbrev, letter)]. *)
Definition hit : Type := (string * string)%type.

(** The residue hits whose position lies in the sequence. *)
Definition aa_hits (pep_seq : string) (aa_mods : list (string * Z)) : list hit :=
  flat_map
    (fun '(abbrev, pos) =>
       match str_getitem pep_seq pos with
       | Ok letter => [(abbrev, letter)]
       | Raise _ => []
       end)
    aa_mods.

Definition term_hits (term_mods : list (string * Z)) : list hit :=
  map (fun '(abbrev, pos_type) => (abbrev, term_letter pos_type)) term_mods.

(** All hits of a peptide in the order of the two loops. *)
Definition hits (pep_seq : string) (aa_mods term_mods : list (string * Z))
  : list hit :=
  aa_hits pep_seq aa_mods ++ term_hits term_mods.

(** The lookup of the code finds a specification of the pool for the
    hit. *)
Definition matches (pool : list pot_mod) (h : hit) : bool :=
  match _find_mod (fst h) (snd h) pool with
  | Some _ => true
  | None => false
  end.

(** The specifications bound to the hits that the variable pool
    matches. *)
Definition var_bound (var_mods : list pot_mod) (hs : list hit) : list pot_mod :=
  flat_map
    (fun h => match _find_mod (fst h) (snd h) var_mods with
              | Some m => [m]
              | None => []
              end)
    hs.

(** The specifications bound to the hits that only the fixed pool
    matches. *)
Definition fixed_bound (var_mods fixed_mods : list pot_mod) (hs : list hit)
  : list pot_mod :=
  flat_map
    (fun h => match _find_mod (fst h) (snd h) fixed_mods with
              | Some m => [m]
              | None => []
              end)
    (filter (fun h => negb (matches var_mods h)) hs).

(** Equality of declared modifications can be decided. *)
Definition pot_mod_dec (a b : pot_mod) : {a = b} + {a <> b}.
Proof. decide equality; apply string_dec. Defined.

(** The pair [(abbrev, letters)] an aggregated entry stands for. *)
Definition key_of (o : Search.mod_entry) : string * pyseq :=
  (snd (fst o), snd o).

(** The loop body of [_get_pep_mods] run over determined hits. *)
Definition resolve_all (var_mods fixed_mods : list pot_mod) (hs : list hit)
    (acc : resolved) : result resolved :=
  for_each (fun acc '(abbrev, letter) => resolve_hit var_mods fixed_mods abbrev letter acc)
    hs acc.


(** The specification takes the hit the way the code decides it: it has
    the abbreviation as its name, and the residue letter or terminus
    token occurs somewhere in its site-list string. *)
Definition fits (h : hit) (spec : pot_mod) : bool :=
  String.eqb (fst spec) (fst h) && str_in (snd h) (snd spec).










End ResolverSpec.

(* ================================================================= *)
(** ** Strings made of one kind of character *)

Module GrammarSpec.

(** Every character of [s] passes [p]. *)
Fixpoint str_forall (p : ascii -> bool) (s : string) : bool :=
  match s with
  | EmptyString => true
  | String a s' => p a && str_forall p s'
  end.

(** An ASCII character: a [str] is taken as the [string] of its bytes,
    and on ASCII characters the character classes of Python's patterns
    are those of [Re.accepts]. *)
Definition is_ascii (a : ascii) : bool := (N_of_ascii a <? 128)%N.

(** [s] holds the character [c]. *)
Fixpoint str_has (c : ascii) (s : string) : bool :=
  match s with
  | EmptyString => false
  | String a s' => Ascii.eqb a c || str_has c s'
  end.

(** The character sets of the two patterns. *)
Definition alnum : Re.cls :=
  Re.Ranges [("0", "9"); ("A", "Z"); ("a", "z")]%char.

Definition alnum_ : Re.cls :=
  Re.Ranges [("0", "9"); ("A", "Z"); ("a", "z"); ("_", "_")]%char.

(** [u] enumerates the set of the values of [xs]. *)
Definition enumerates (u xs : list Z) : Prop :=
  NoDup u /\ forall x, In x u <-> In x xs.

End GrammarSpec.

(* ================================================================= *)
(** ** The form of a declaration *)

Module DeclarationSpec.

Import Discoverer GrammarSpec.

(** A character other than the line break. *)
Definition on_line (a : ascii) : bool := negb (Ascii.eqb a Re.newline).

(** Behind the first character of a site list: text of the line, then a
    closing parenthesis. *)
Fixpoint closing (s : string) : bool :=
  match s with
  | EmptyString => false
  | String x s' => if Ascii.eqb x ")" then true else on_line x && closing s'
  end.

(** A space, an opening parenthesis, a character of the line and
    [closing]. *)
Definition opening (s : string) : bool :=
  match s with
  | String a (String b (String x s')) =>
      Ascii.eqb a " " && Ascii.eqb b "(" && on_line x && closing s'
  | _ => false
  end.

(** Behind the first character of a name: more text of the line, then
    [opening]. *)
Fixpoint name_part (s : string) : bool :=
  opening s
  || match s with
     | EmptyString => false
     | String x s' => on_line x && name_part s'
     end.

(** The form that the pattern of [RE_DYN_MODS] asks of an entry: at
    least one character, a space and an opening parenthesis, at least one
    character and a closing parenthesis, all on the first line; whatever
    follows is free. *)
Definition has_form (i : string) : bool :=
  match i with
  | EmptyString => false
  | String x s' => on_line x && name_part s'
  end.

(** The entry [i] is read as the specification [p]: behind nothing or a
    count and a space it holds the name, a space, the site list in
    parentheses and then whatever follows. *)
Definition read_as (i : string) (p : pot_mod) : Prop :=
  exists before behind : string,
    i = (before ++ fst p ++ " (" ++ snd p ++ ")" ++ behind)%string
    /\ fst p <> EmptyString /\ snd p <> EmptyString
    /\ str_forall on_line (fst p) = true
    /\ str_forall on_line (snd p) = true
    /\ (before = EmptyString
        \/ exists count : string,
             count <> EmptyString
             /\ str_forall (Re.accepts Re.digit) count = true
             /\ before = (count ++ " ")%string).

(** *** The form as the specification words it *)

(** A residue letter. *)
Definition residue_letter (a : ascii) : bool :=
  (N_of_ascii "A" <=? N_of_ascii a)%N && (N_of_ascii a <=? N_of_ascii "Z")%N.

(** A site list: a run of residue letters or one of the two terminal
    tokens. *)
Definition site_list (s : string) : bool :=
  (negb (String.eqb s EmptyString) && str_forall residue_letter s)
  || String.eqb s "N-term" || String.eqb s "C-term".

(** Every way of cutting a string in two. *)
Fixpoint splits (s : string) : list (string * string) :=
  (EmptyString, s)
  :: match s with
     | EmptyString => []
     | String x s' => map (fun '(a, b) => (String x a, b)) (splits s')
     end.

(** [s] without the closing parenthesis it ends with. *)
Fixpoint before_closing (s : string) : option string :=
  match s with
  | EmptyString => None
  | String x EmptyString => if Ascii.eqb x ")" then Some EmptyString else None
  | String x s' => option_map (String x) (before_closing s')
  end.

(** What stands in the parentheses of " (" sites ")". *)
Definition in_parentheses (s : string) : option string :=
  match s with
  | String a (String b s') =>
      if Ascii.eqb a " " && Ascii.eqb b "(" then before_closing s' else None
  | _ => None
  end.

(** The entry is written as the specification gives the expected text:
    an optional count and a name, then a space and a site list in
    parentheses, and nothing behind. *)
Definition well_formed (i : string) : bool :=
  existsb
    (fun '(name, rest) =>
       negb (String.eqb name EmptyString)
       && match in_parentheses rest with
          | Some sites => site_list sites
          | None => false
          end)
    (splits i).

End DeclarationSpec.

(* ================================================================= *)
(** ** A record and the row it was made from *)

Module DeliverySpec.

Import Search Discoverer.

(** The record [q] is what the loop of [_get_peptide_queries] builds
    from the row [r], with the pools [var_mods] and [fixed_mods]. *)
Definition built_from (c : cursor) (var_mods fixed_mods : list pot_mod)
    (r : row) (q : PeptideQuery) : Prop :=
  pep_seq q = row_pep_seq r
  /\ scan q = row_scan r
  /\ filename q = row_filename r
  /\ pep_exp_mz q = exp_mz r
  /\ pep_exp_z q = exp_z r
  /\ query q = handle c
  /\ parse_description (full_prot_desc r) = Ok (gi q, protein q)
  /\ _get_pep_mods c (pep_id r) (row_pep_seq r) var_mods fixed_mods
     = Ok (pep_var_mods q, pep_fixed_mods q)
  /\ num_comb q = _calc_num_comb (pep_seq q) (pep_var_mods q).

(** The name of a processing parameter marks a fixed, a variable
    modification. *)
Definition is_static (p : string * string) : bool :=
  String.prefix "StaticMod_" (fst p).

Definition is_dynamic (p : string * string) : bool :=
  String.prefix "DynMod_" (fst p).

End DeliverySpec.

(* ================================================================= *)
(** ** Sample result files *)

Module Samples.

Import Discoverer.

(** One peptide, MSMK, oxidised on both methionines, phosphorylated on
    the serine and labelled at the N-terminus. *)
Definition labelled : cursor :=
  mkCursor 1
    (fun id => if id =? 1
               then [("Oxidation", 0); ("Oxidation", 2); ("Phospho", 1)]%string
               else [])
    (fun id => if id =? 1 then [("TMT6plex", 1)]%string else [])
    [mkRow 1 ">sp|P04049|RAF1_HUMAN RAF proto-oncogene OS=Homo sapiens" "MSMK"
       1200 650.5%float 2 "run.raw"].

(** One peptide, MAK, with a hit on the alanine that nothing declares. *)
Definition undeclared : cursor :=
  mkCursor 1
    (fun id => if id =? 1 then [("Phospho", 1)]%string else [])
    (fun _ => [])
    [mkRow 1 ">sp|P04049|RAF1_HUMAN RAF proto-oncogene OS=Homo sapiens" "MAK"
       1200 650.5%float 2 "run.raw"].

(** Two first-rank peptides of one spectrum and one protein: the same
    sequence, phosphorylated on the serine in one and on the threonine in
    the other. *)
Definition isoforms : cursor :=
  mkCursor 1
    (fun id => if id =? 1 then [("Phospho", 1)]%string
               else if id =? 2 then [("Phospho", 2)]%string
               else [])
    (fun _ => [])
    [mkRow 1 ">sp|P04049|RAF1_HUMAN RAF proto-oncogene OS=Homo sapiens" "ASTK"
       1200 650.5%float 2 "run.raw";
     mkRow 2 ">sp|P04049|RAF1_HUMAN RAF proto-oncogene OS=Homo sapiens" "ASTK"
       1200 650.5%float 2 "run.raw"].

(** One peptide, ANK, with a hit on the asparagine. *)
Definition asparagine : cursor :=
  mkCursor 1
    (fun id => if id =? 1 then [("Acetyl", 1)]%string else [])
    (fun _ => [])
    [mkRow 1 ">sp|P04049|RAF1_HUMAN RAF proto-oncogene OS=Homo sapiens" "ANK"
       1200 650.5%float 2 "run.raw"].

(** One peptide of a protein from the unreviewed part of the protein
    database. *)
Definition unreviewed : cursor :=
  mkCursor 1
    (fun _ => [])
    (fun _ => [])
    [mkRow 1 ">tr|Q9XYZ1|Q9XYZ1_HUMAN Uncharacterized protein OS=Homo sapiens"
       "MAK" 1200 650.5%float 2 "run.raw"].

End Samples.

(* ================================================================= *)
(** ** Worked examples *)

Example nCr_3_1 : Utils.nCr 3 1 = 3.
Proof. reflexivity. Qed.

Example count_aaa : str_count "aaa" "aa" = 1.
Proof. reflexivity. Qed.

Example parse_oxidation :
  Discoverer.parse_declaration "Oxidation (M)" = Ok ("Oxidation", "M")%string.
Proof. reflexivity. Qed.

Example parse_counted :
  Discoverer.parse_declaration "2 Phospho (STY)" = Ok ("Phospho", "STY")%string.
Proof. reflexivity. Qed.

Example parse_terminal :
  Discoverer.parse_declaration "TMT6plex (N-term)" = Ok ("TMT6plex", "N-term")%string.
Proof. reflexivity. Qed.

Example parse_garbage :
  Discoverer.parse_declaration "Oxidation" = Raise AttributeError.
Proof. reflexivity. Qed.

Example parse_isotope_name :
  Discoverer.parse_declaration "13C6 (K)" = Ok ("13C6", "K")%string.
Proof. reflexivity. Qed.

Example parse_trailing_text :
  Discoverer.parse_declaration "2 Oxidation (M) optional"
  = Ok ("Oxidation", "M")%string.
Proof. reflexivity. Qed.

Example parse_two_parentheses :
  Discoverer.parse_declaration "Label (heavy) (KR)"
  = Ok ("Label (heavy)", "KR")%string.
Proof. reflexivity. Qed.

Example position_outside_sequence :
  Discoverer._get_pep_mods
    (Discoverer.mkCursor 1 (fun _ => [("Oxidation", 3)]%string) (fun _ => []) [])
    1 "MAK" [("Oxidation", "M")%string] []
  = Raise IndexError.
Proof. reflexivity. Qed.

Example position_from_the_end :
  Discoverer._get_pep_mods
    (Discoverer.mkCursor 1 (fun _ => [("Oxidation", -3)]%string) (fun _ => []) [])
    1 "MAK" [("Oxidation", "M")%string] []
  = Ok ([(1, "Oxidation"%string, PyTuple ["M"%string])], []).
Proof. reflexivity. Qed.

Example labelled_peptide :
  match Discoverer._get_peptide_queries Samples.labelled
          ["TMT6plex (N-term)"]%string ["Oxidation (M)"; "Phospho (STY)"]%string with
  | Ok [q] =>
      Search.pep_var_mods q
      = [(2, "Oxidation"%string, PyTuple ["M"%string]);
         (1, "Phospho"%string, PyTuple ["S"; "T"; "Y"]%string)]
      /\ Search.pep_fixed_mods q = [(1, "TMT6plex"%string, PyTuple ["N-term"%string])]
      /\ Search.gi q = "RAF1_HUMAN"%string
      /\ Search.num_comb q = 1
  | _ => False
  end.
Proof. vm_compute. repeat split; reflexivity. Qed.

Example disjoint_pools :
  Search._calc_num_comb "MMK"
    [(1, "Oxidation"%string, PyTuple ["M"%string]);
     (1, "Acetyl"%string, PyTuple ["K"%string])] = 2.
Proof. reflexivity. Qed.

Example parse_desc :
  Discoverer.parse_description ">sp|P12345|ALBU_HUMAN Serum albumin OS=Homo sapiens"
  = Ok ("ALBU_HUMAN", "Serum albumin OS=Homo sapiens")%string.
Proof. reflexivity. Qed.

(* ================================================================= *)
(** ** Properties of the enumerator ([PeptideQuery._calc_num_comb]) *)

Import Search.

Lemma sum_from (l : list Z) (a : Z) : fold_left Z.add l a = a + Py.sum l.
Proof.
  unfold Py.sum. revert a.
  induction l as [|x l IH]; intro a; simpl; [lia|].
  rewrite (IH (a + x)), (IH x). lia.
Qed.

Lemma sum_cons (x : Z) (l : list Z) : Py.sum (x :: l) = x + Py.sum l.
Proof. unfold Py.sum at 1. simpl. apply sum_from. Qed.

Lemma sum_app (l1 l2 : list Z) : Py.sum (l1 ++ l2) = Py.sum l1 + Py.sum l2.
Proof.
  induction l1 as [|x l1 IH]; simpl.
  - change (Py.sum []) with 0. lia.
  - rewrite !sum_cons, IH. lia.
Qed.

(** A tuple is never [==] to the list literal, so the rebinding of
    [letters] leaves every tuple as it is. *)
Lemma effective_letters_tuple (mod_ : string) (letters : pyseq) :
  is_tuple letters = true -> effective_letters mod_ letters = letters.
Proof.
  destruct letters as [l|l]; simpl; [|discriminate].
  intros _. unfold effective_letters. simpl.
  now rewrite andb_false_r.
Qed.

Lemma check_mods_In (mods : list mod_entry) (count : Z) (mod_ : string)
    (letters : pyseq) :
  _check_mods mods = true -> In (count, mod_, letters) mods ->
  is_tuple letters = true.
Proof.
  unfold _check_mods. rewrite forallb_forall.
  intros H Hin. exact (H _ Hin).
Qed.

(** The inner loop subtracts exactly the counts of the entries that pass
    its test. *)
Lemma subtract_competitors_filter (mods : list mod_entry) (mod_ : string)
    (letters : pyseq) (init : Z) :
  subtract_competitors mods mod_ letters init
  = init - Py.sum (map count_of
                     (filter (fun '(o_count, o_mod, o_letters) =>
                                seq_eq o_letters letters && negb (String.eqb o_mod mod_))
                        mods)).
Proof.
  unfold subtract_competitors. revert init.
  induction mods as [|[[o_count o_mod] o_letters] mods IH]; intro init; simpl.
  - unfold Py.sum. simpl. lia.
  - rewrite IH.
    destruct (seq_eq o_letters letters && negb (String.eqb o_mod mod_)); simpl.
    + rewrite sum_cons. unfold count_of at 2. simpl. lia.
    + reflexivity.
Qed.

Lemma calc_loop_zero (pep_seq : string) (mods todo : list mod_entry) :
  calc_loop pep_seq mods todo 0 = 0.
Proof.
  unfold calc_loop.
  induction todo as [|[[count mod_] letters] todo IH]; simpl; [reflexivity|].
  exact IH.
Qed.

Lemma calc_loop_zero_factor (pep_seq : string) (mods todo : list mod_entry)
    (count : Z) (mod_ : string) (letters : pyseq) (acc : Z) :
  In (count, mod_, letters) todo ->
  Utils.nCr (potential_mod_sites pep_seq mods mod_ letters) count = 0 ->
  calc_loop pep_seq mods todo acc = 0.
Proof.
  revert acc.
  induction todo as [|[[c m] l] todo IH]; intros acc Hin Hz; [destruct Hin|].
  destruct Hin as [Heq|Hin].
  - inversion Heq; subst. unfold calc_loop. simpl. rewrite Hz, Z.mul_0_r.
    apply calc_loop_zero.
  - unfold calc_loop. simpl. apply IH; assumption.
Qed.

Lemma nCr_short (n k : Z) : k > n -> Utils.nCr n k = 0.
Proof.
  intro H. unfold Utils.nCr.
  assert (E : (k >? n) = true) by (apply Z.gtb_lt; lia).
  now rewrite E.
Qed.

(** What the constructor stores. *)
Lemma new_PeptideQuery_ok (gi protein : string) (query : Z) (filename : string)
    (mz : float) (z : Z) (pep_seq : string) (vm fm : list mod_entry) (scan : Z) :
  _check_mods vm = true -> _check_mods fm = true ->
  new_PeptideQuery gi protein query filename mz z pep_seq vm fm scan
  = Ok (mkPeptideQuery gi protein query filename mz z pep_seq vm fm scan
          (_calc_num_comb pep_seq vm)).
Proof.
  intros Hv Hf. unfold new_PeptideQuery. now rewrite Hv, Hf.
Qed.

(** C1 (the code departs from the claim).  The claim: a variable "Phospho"
    entry declared on S and T is counted over S, T and Y, so that a
    sequence with S, T and Y and one such entry of count 1 has
    [num_comb = C(3,1) = 3].  The code: the entry's residues are the tuple
    [("S", "T")], which the test [letters == ["S", "T"]] never accepts;
    the record is built, with Y left out and [num_comb = C(2,1) = 2].  The
    list [["S", "T"]], for which the test does hold, is turned away by the
    constructor's assertion. *)
Theorem phospho_expansion_not_applied :
  (exists q,
      new_PeptideQuery "P04049" "RAF1" 1 "run.raw" 650.5%float 2 "STY"
        [(1, "Phospho"%string, PyTuple ["S"; "T"]%string)] [] 1200 = Ok q
      /\ num_comb q = 2)
  /\ potential_mod_sites "STY" [(1, "Phospho"%string, PyTuple ["S"; "T"]%string)]
       "Phospho" (PyTuple ["S"; "T"]%string) = 2
  /\ Utils.nCr 3 1 = 3
  /\ new_PeptideQuery "P04049" "RAF1" 1 "run.raw" 650.5%float 2 "STY"
       [(1, "Phospho"%string, PyList ["S"; "T"]%string)] [] 1200
     = Raise AssertionError.
Proof.
  split; [|split; [|split]]; try reflexivity.
  eexists. split; reflexivity.
Qed.

(** C2 as the specification has it fails: the claim subtracts the count
    of every other entry with the same candidate-site set.  On the
    sequence MW, with Oxidation declared on (M, W) and Dioxidation on
    (W, M), the two sets are the same and the claim leaves one site to
    Oxidation; the code compares the tuples, which differ, subtracts
    nothing and leaves two, and [num_comb] is 4. *)
Lemma same_set_in_another_order :
  let mods := [(1, "Oxidation"%string, PyTuple ["M"; "W"]%string);
               (1, "Dioxidation"%string, PyTuple ["W"; "M"]%string)] in
  _check_mods mods = true
  /\ In (1, "Oxidation"%string, PyTuple ["M"; "W"]%string) mods
  /\ EnumeratorSpec.spec_available "MW" mods "Oxidation" (PyTuple ["M"; "W"]%string) = 1
  /\ potential_mod_sites "MW" mods "Oxidation" (PyTuple ["M"; "W"]%string) = 2
  /\ potential_mod_sites "MW" mods "Oxidation" (PyTuple ["M"; "W"]%string)
     <> EnumeratorSpec.spec_available "MW" mods "Oxidation" (PyTuple ["M"; "W"]%string)
  /\ _calc_num_comb "MW" mods = 4.
Proof.
  cbv zeta. split; [reflexivity|]. split; [simpl; left; reflexivity|].
  split; [reflexivity|]. split; [reflexivity|]. split; [|reflexivity].
  vm_compute. discriminate.
Qed.

(** C2, amended.  For every entry of a variable list that the constructor
    accepts, a Phospho entry declared on (S, T) apart, the available-site
    count handed to [nCr] is the number of occurrences of the entry's
    residues in the sequence less the counts of the other entries that
    are declared on the very same residue tuple (the same residues in the
    same order) under another abbreviation.  In particular, on two
    methionines with Oxidation and Dioxidation, one each on M, either
    entry has one site available and [num_comb] is 1. *)
Theorem site_pool_subtraction :
  (forall (pep_seq : string) (mods : list mod_entry) (count : Z) (mod_ : string)
          (letters : pyseq),
      _check_mods mods = true ->
      In (count, mod_, letters) mods ->
      ~ (mod_ = "Phospho"%string /\ letters = PyTuple ["S"; "T"]%string) ->
      potential_mod_sites pep_seq mods mod_ letters
      = site_count pep_seq letters
        - Py.sum (map count_of
                    (filter (EnumeratorSpec.same_tuple_competes mod_ letters) mods)))
  /\ (let mods := [(1, "Oxidation"%string, PyTuple ["M"%string]);
                   (1, "Dioxidation"%string, PyTuple ["M"%string])] in
      potential_mod_sites "MM" mods "Oxidation" (PyTuple ["M"%string]) = 1
      /\ potential_mod_sites "MM" mods "Dioxidation" (PyTuple ["M"%string]) = 1
      /\ _calc_num_comb "MM" mods = 1).
Proof.
  split.
  - intros pep_seq mods count mod_ letters Hc Hin _.
    unfold potential_mod_sites.
    rewrite (effective_letters_tuple mod_ letters (check_mods_In _ _ _ _ Hc Hin)).
    rewrite subtract_competitors_filter. do 3 f_equal.
    apply filter_ext. intros [[o_count o_mod] o_letters]. reflexivity.
  - repeat split; reflexivity.
Qed.

Lemma site_pool_subtraction_witness :
  potential_mod_sites "MAMK"
    [(1, "Oxidation"%string, PyTuple ["M"%string]);
     (1, "Dioxidation"%string, PyTuple ["M"%string])]
    "Oxidation" (PyTuple ["M"%string])
  = site_count "MAMK" (PyTuple ["M"%string])
    - Py.sum (map count_of
                (filter (EnumeratorSpec.same_tuple_competes "Oxidation"
                           (PyTuple ["M"%string]))
                   [(1, "Oxidation"%string, PyTuple ["M"%string]);
                    (1, "Dioxidation"%string, PyTuple ["M"%string])])).
Proof.
  apply (proj1 site_pool_subtraction "MAMK"%string
           [(1, "Oxidation"%string, PyTuple ["M"%string]);
            (1, "Dioxidation"%string, PyTuple ["M"%string])]
           1 "Oxidation"%string (PyTuple ["M"%string])).
  - reflexivity.
  - simpl. left. reflexivity.
  - intros [H _]. discriminate.
Defined.

(** C3.  An entry whose count exceeds its available sites has the factor
    [nCr(available, count) = 0], which makes [num_comb] 0; the constructor
    raises nothing and stores that 0.  With no variable entries
    [num_comb] is 1. *)
Theorem degenerate_count_is_zero :
  (forall (gi protein : string) (query : Z) (filename : string) (mz : float)
          (z : Z) (pep_seq : string) (vm fm : list mod_entry) (scan : Z)
          (count : Z) (mod_ : string) (letters : pyseq),
      _check_mods vm = true -> _check_mods fm = true ->
      In (count, mod_, letters) vm ->
      count > potential_mod_sites pep_seq vm mod_ letters ->
      Utils.nCr (potential_mod_sites pep_seq vm mod_ letters) count = 0
      /\ _calc_num_comb pep_seq vm = 0
      /\ exists q,
           new_PeptideQuery gi protein query filename mz z pep_seq vm fm scan = Ok q
           /\ num_comb q = 0)
  /\ (forall pep_seq : string, _calc_num_comb pep_seq [] = 1).
Proof.
  split; [|reflexivity].
  intros gi protein query filename mz z pep_seq vm fm scan count mod_ letters
         Hv Hf Hin Hgt.
  pose proof (nCr_short _ _ Hgt) as Hz.
  assert (H0 : _calc_num_comb pep_seq vm = 0)
    by (unfold _calc_num_comb; eapply calc_loop_zero_factor; eassumption).
  repeat split; try assumption.
  eexists. split.
  - apply new_PeptideQuery_ok; assumption.
  - simpl. exact H0.
Qed.

Lemma degenerate_count_is_zero_witness :
  exists q,
    new_PeptideQuery "P04049" "RAF1" 1 "run.raw" 650.5%float 2 "MAK"
      [(2, "Oxidation"%string, PyTuple ["M"%string])] [] 1200 = Ok q
    /\ num_comb q = 0.
Proof.
  apply (proj1 degenerate_count_is_zero "P04049"%string "RAF1"%string 1
           "run.raw"%string 650.5%float 2 "MAK"%string
           [(2, "Oxidation"%string, PyTuple ["M"%string])] [] 1200
           2 "Oxidation"%string (PyTuple ["M"%string])).
  - reflexivity.
  - reflexivity.
  - simpl. left. reflexivity.
  - vm_compute. reflexivity.
Defined.

(* ================================================================= *)
(** ** Identity of peptide records ([__eq__], [__hash__]) *)

Lemma identity_eqb_eq (a b : identity) : identity_eqb a b = true <-> a = b.
Proof.
  destruct a as [[[g1 q1] s1] n1], b as [[[g2 q2] s2] n2]. simpl.
  rewrite !andb_true_iff, !String.eqb_eq, !Z.eqb_eq.
  split.
  - intros [[[-> ->] ->] ->]. reflexivity.
  - intro H. inversion H. auto.
Qed.

(** C9.  Two peptide records compare equal, and hash equal, exactly when
    they have the same accession, the same query, the same sequence and
    the same scan, that is, the same identity tuple: records that differ
    in one of the four compare unequal, and the description, file name,
    precursor m/z, charge, modification lists and combination count have
    no part in it. *)
Theorem identity_tuple_decides_equality :
  forall hash : identity -> Z,
    (forall p q : PeptideQuery,
        (__eq__ p q = true /\ __hash__ hash p = __hash__ hash q)
        <-> _unique_tuple p = _unique_tuple q)
    /\ (forall p q : PeptideQuery,
           (__eq__ p q = true /\ __hash__ hash p = __hash__ hash q)
           <-> (gi p = gi q /\ query p = query q
                /\ pep_seq p = pep_seq q /\ scan p = scan q))
    /\ (forall p q : PeptideQuery,
           gi p <> gi q \/ query p <> query q
           \/ pep_seq p <> pep_seq q \/ scan p <> scan q ->
           __eq__ p q = false)
    /\ (forall (gi : string) (query : Z) (pep_seq : string) (scan : Z)
               (protein1 protein2 filename1 filename2 : string)
               (mz1 mz2 : float) (z1 z2 : Z)
               (vm1 vm2 fm1 fm2 : list mod_entry) (n1 n2 : Z),
           let p := mkPeptideQuery gi protein1 query filename1 mz1 z1 pep_seq
                      vm1 fm1 scan n1 in
           let q := mkPeptideQuery gi protein2 query filename2 mz2 z2 pep_seq
                      vm2 fm2 scan n2 in
           __eq__ p q = true /\ __hash__ hash p = __hash__ hash q).
Proof.
  intro hash.
  assert (forall p q : PeptideQuery,
             _unique_tuple p = _unique_tuple q
             <-> (gi p = gi q /\ query p = query q
                  /\ pep_seq p = pep_seq q /\ scan p = scan q)) as Hfields.
  { intros p q. unfold _unique_tuple. split.
    - intro H. inversion H. auto.
    - intros (-> & -> & -> & ->). reflexivity. }
  assert (forall p q : PeptideQuery,
             (__eq__ p q = true /\ __hash__ hash p = __hash__ hash q)
             <-> _unique_tuple p = _unique_tuple q) as Htuple.
  { intros p q. unfold __eq__, __hash__. rewrite identity_eqb_eq. split.
    - intros [H _]. exact H.
    - intro H. rewrite H. split; reflexivity. }
  split; [exact Htuple|]. split; [|split].
  - intros p q. rewrite Htuple. apply Hfields.
  - intros p q Hdiff.
    destruct (__eq__ p q) eqn:E; [|reflexivity]. exfalso.
    unfold __eq__ in E. apply identity_eqb_eq in E.
    apply Hfields in E. destruct E as (E1 & E2 & E3 & E4).
    destruct Hdiff as [H|[H|[H|H]]]; contradiction.
  - intros. subst p q. unfold __eq__, __hash__. rewrite identity_eqb_eq.
    split; reflexivity.
Qed.

Lemma identity_tuple_decides_equality_witness :
  __eq__
    (mkPeptideQuery "RAF1_HUMAN" "RAF" 1 "run.raw" 650.5%float 2 "ASTK" [] [] 1200 1)
    (mkPeptideQuery "RAF1_HUMAN" "RAF" 1 "run.raw" 650.5%float 2 "ASTK" [] [] 1201 1)
  = false.
Proof.
  apply (proj1 (proj2 (proj2 (identity_tuple_decides_equality (fun _ => 0))))).
  right. right. right. simpl. discriminate.
Defined.

(* ================================================================= *)
(** ** Properties of the resolver ([_find_mod], [_get_pep_mods]) *)

Import Discoverer ResolverSpec.

Lemma for_each_app {A S : Type} (body : S -> A -> result S) (xs ys : list A)
    (acc : S) :
  for_each body (xs ++ ys) acc = Py.bind (for_each body xs acc) (for_each body ys).
Proof.
  revert acc. induction xs as [|x xs IH]; intro acc; simpl; [reflexivity|].
  destruct (body acc x) as [acc'|e]; simpl; [apply IH|reflexivity].
Qed.

(** The second loop runs the shared body over the terminus hits. *)
Lemma term_loop_resolve_all (var_mods fixed_mods : list pot_mod)
    (term_mods : list (string * Z)) (acc : resolved) :
  for_each (term_step var_mods fixed_mods) term_mods acc
  = resolve_all var_mods fixed_mods (term_hits term_mods) acc.
Proof.
  unfold resolve_all. revert acc.
  induction term_mods as [|[abbrev pos_type] l IH]; intro acc; simpl; [reflexivity|].
  destruct (resolve_hit var_mods fixed_mods abbrev (term_letter pos_type) acc);
    simpl; [apply IH|reflexivity].
Qed.

(** A first loop that comes through has looked up every position. *)
Lemma aa_loop_ok (pep_seq : string) (var_mods fixed_mods : list pot_mod)
    (aa_mods : list (string * Z)) (acc r : resolved) :
  for_each (aa_step pep_seq var_mods fixed_mods) aa_mods acc = Ok r ->
  resolve_all var_mods fixed_mods (aa_hits pep_seq aa_mods) acc = Ok r
  /\ List.length (aa_hits pep_seq aa_mods) = List.length aa_mods.
Proof.
  unfold resolve_all. revert acc.
  induction aa_mods as [|[abbrev pos] l IH]; intros acc H; simpl in *.
  - split; [assumption|reflexivity].
  - unfold aa_step in H at 1. destruct (str_getitem pep_seq pos) as [letter|e];
      simpl in *; [|discriminate].
    destruct (resolve_hit var_mods fixed_mods abbrev letter acc) as [acc'|e];
      simpl in *; [|discriminate].
    destruct (IH _ H) as [H1 H2]. split; [exact H1|now rewrite H2].
Qed.

Lemma resolve_all_app (var_mods fixed_mods : list pot_mod) (h1 h2 : list hit)
    (acc : resolved) :
  resolve_all var_mods fixed_mods (h1 ++ h2) acc
  = Py.bind (resolve_all var_mods fixed_mods h1 acc)
      (resolve_all var_mods fixed_mods h2).
Proof. apply for_each_app. Qed.

Lemma resolve_hits_ok (pep_seq : string) (var_mods fixed_mods : list pot_mod)
    (aa_mods term_mods : list (string * Z)) (r : resolved) :
  resolve_hits pep_seq var_mods fixed_mods aa_mods term_mods = Ok r ->
  resolve_all var_mods fixed_mods (hits pep_seq aa_mods term_mods) ([], []) = Ok r
  /\ List.length (hits pep_seq aa_mods term_mods)
     = (List.length aa_mods + List.length term_mods)%nat.
Proof.
  unfold resolve_hits, hits. intro H.
  destruct (for_each (aa_step pep_seq var_mods fixed_mods) aa_mods ([], []))
    as [acc|e] eqn:E; simpl in H; [|discriminate].
  destruct (aa_loop_ok _ _ _ _ _ _ E) as [E1 E2].
  rewrite resolve_all_app, E1. simpl.
  rewrite <- term_loop_resolve_all. split; [exact H|].
  rewrite length_app, E2. unfold term_hits. now rewrite length_map.
Qed.

(** What a run of the shared body that comes through has collected. *)
Lemma resolve_all_ok (var_mods fixed_mods : list pot_mod) (hs : list hit)
    (vs fs vs' fs' : list pot_mod) :
  resolve_all var_mods fixed_mods hs (vs, fs) = Ok (vs', fs') ->
  vs' = vs ++ var_bound var_mods hs
  /\ fs' = fs ++ fixed_bound var_mods fixed_mods hs
  /\ (List.length vs' + List.length fs'
      = List.length vs + List.length fs + List.length hs)%nat.
Proof.
  unfold resolve_all, var_bound, fixed_bound. revert vs fs.
  induction hs as [|[abbrev letter] hs IH]; intros vs fs H; simpl in *.
  - inversion H; subst. rewrite !app_nil_r. repeat split. simpl. lia.
  - unfold matches at 1. simpl.
    destruct (_find_mod abbrev letter var_mods) as [mv|] eqn:Ev; simpl in *.
    + destruct (IH _ _ H) as (Hv & Hf & Hl).
      rewrite <- app_assoc in Hv. rewrite length_app in Hl. simpl in Hv, Hl.
      repeat split; [exact Hv|exact Hf|lia].
    + destruct (_find_mod abbrev letter fixed_mods) as [mf|] eqn:Ef; simpl in *;
        [|discriminate].
      destruct (IH _ _ H) as (Hv & Hf & Hl).
      rewrite <- app_assoc in Hf. rewrite length_app in Hl. simpl in Hf, Hl.
      repeat split; [exact Hv|exact Hf|lia].
Qed.

(** C4.  The variable pool is searched first: a hit that a specification
    of the variable pool matches is bound to that specification and added
    to the variable list, the fixed list staying as it was, also when the
    fixed pool matches it too.  For a whole peptide: the fixed list holds
    only bindings of hits that the variable pool does not match. *)
Theorem variable_pool_has_priority :
  forall (var_mods fixed_mods : list pot_mod),
    (forall (abbrev letter : string) (mv mf : pot_mod) (vs fs : list pot_mod),
        _find_mod abbrev letter var_mods = Some mv ->
        _find_mod abbrev letter fixed_mods = Some mf ->
        resolve_hit var_mods fixed_mods abbrev letter (vs, fs)
        = Ok (vs ++ [mv], fs))
    /\ (forall (pep_seq : string) (aa_mods term_mods : list (string * Z))
               (vs fs : list pot_mod),
           resolve_hits pep_seq var_mods fixed_mods aa_mods term_mods = Ok (vs, fs) ->
           vs = var_bound var_mods (hits pep_seq aa_mods term_mods)
           /\ fs = fixed_bound var_mods fixed_mods (hits pep_seq aa_mods term_mods)).
Proof.
  intros var_mods fixed_mods. split.
  - intros abbrev letter mv mf vs fs Hv _. unfold resolve_hit. now rewrite Hv.
  - intros pep_seq aa_mods term_mods vs fs H.
    destruct (resolve_hits_ok _ _ _ _ _ _ H) as [H1 _].
    destruct (resolve_all_ok _ _ _ _ _ _ _ H1) as (Hv & Hf & _).
    split; assumption.
Qed.

Lemma variable_pool_has_priority_witness :
  resolve_hit [("Oxidation", "M")%string] [("Oxidation", "MW")%string]
    "Oxidation" "M" ([], [])
  = Ok ([("Oxidation", "M")%string], []).
Proof.
  apply (proj1 (variable_pool_has_priority [("Oxidation", "M")%string]
                  [("Oxidation", "MW")%string])
           "Oxidation"%string "M"%string ("Oxidation", "M")%string
           ("Oxidation", "MW")%string [] []).
  - reflexivity.
  - reflexivity.
Defined.








Example undeclared_modification :
  _get_pep_mods Samples.undeclared 1 "MAK" [("Oxidation", "M")%string]
    [("Carbamidomethyl", "C")%string]
  = Raise (Exception "Unexpected modification: A Phospho").
Proof. reflexivity. Qed.

(* ================================================================= *)
(** ** Properties of the aggregator ([_count_mods]) *)

Section CounterFacts.

Variable K : Type.
Variable K_eqb : K -> K -> bool.

Lemma incr_sum (elem : K) (c : list (K * Z)) :
  Py.sum (map snd (Collections.incr K_eqb elem c)) = Py.sum (map snd c) + 1.
Proof.
  induction c as [|[k n] c IH]; simpl.
  - reflexivity.
  - destruct (K_eqb k elem); simpl; rewrite !sum_cons; simpl; [lia|].
    rewrite IH. lia.
Qed.

Lemma incr_positive (elem : K) (c : list (K * Z)) :
  Forall (fun kv => 1 <= snd kv) c ->
  Forall (fun kv => 1 <= snd kv) (Collections.incr K_eqb elem c).
Proof.
  induction 1 as [|[k n] c Hk Hc IH]; simpl.
  - constructor; [simpl; lia|constructor].
  - destruct (K_eqb k elem); constructor; simpl in *; try lia; assumption.
Qed.

Lemma counter_from (l : list K) (c : list (K * Z)) :
  Forall (fun kv => 1 <= snd kv) c ->
  Py.sum (map snd (fold_left (fun c elem => Collections.incr K_eqb elem c) l c))
  = Py.sum (map snd c) + Z.of_nat (List.length l)
  /\ Forall (fun kv => 1 <= snd kv)
       (fold_left (fun c elem => Collections.incr K_eqb elem c) l c).
Proof.
  revert c. induction l as [|x l IH]; intros c Hc.
  - simpl. split; [lia|assumption].
  - cbn [fold_left List.length].
    destruct (IH _ (incr_positive x c Hc)) as [Hs Hp].
    split; [|exact Hp]. rewrite Hs, incr_sum. lia.
Qed.

Lemma Counter_total (l : list K) :
  Py.sum (map snd (Collections.Counter K_eqb l)) = Z.of_nat (List.length l)
  /\ Forall (fun kv => 1 <= snd kv) (Collections.Counter K_eqb l).
Proof.
  unfold Collections.Counter.
  destruct (counter_from l [] (Forall_nil _)) as [Hs Hp].
  split; [|exact Hp]. rewrite Hs. reflexivity.
Qed.

End CounterFacts.

Lemma count_mods_total (mod_list : list pot_mod) :
  Py.sum (map count_of (_count_mods mod_list)) = Z.of_nat (List.length mod_list)
  /\ Forall (fun o => 1 <= count_of o) (_count_mods mod_list).
Proof.
  destruct (Counter_total pot_mod pot_mod_eqb mod_list) as [Hs Hp].
  unfold _count_mods. split.
  - rewrite map_map. rewrite <- Hs. f_equal. apply map_ext.
    intros [[abbrev letters] count]. reflexivity.
  - apply Forall_map. eapply Forall_impl; [|exact Hp].
    intros [[abbrev letters] count]. simpl. auto.
Qed.

(** C7.  When a peptide resolves, the counts of the variable and fixed
    entries returned add up to the number of its hits (residue hits and
    terminus hits together) and each of them is at least 1; whatever the
    list it is given, the aggregator returns no entry with a count below
    1. *)
Theorem counts_add_up_to_hits :
  forall (c : cursor) (pep_id : Z) (pep_seq : string)
         (var_mods fixed_mods : list pot_mod)
         (pep_var_mods pep_fixed_mods : list mod_entry),
    _get_pep_mods c pep_id pep_seq var_mods fixed_mods
    = Ok (pep_var_mods, pep_fixed_mods) ->
    Py.sum (map count_of (pep_var_mods ++ pep_fixed_mods))
    = Z.of_nat (List.length (aa_mods_of c pep_id)
                + List.length (term_mods_of c pep_id))
    /\ Forall (fun o => 1 <= count_of o) (pep_var_mods ++ pep_fixed_mods)
    /\ (forall mod_list : list pot_mod,
           Forall (fun o => 1 <= count_of o /\ count_of o <> 0)
             (_count_mods mod_list)).
Proof.
  intros c pep_id pep_seq var_mods fixed_mods pv pf H.
  unfold _get_pep_mods in H.
  destruct (resolve_hits pep_seq var_mods fixed_mods (aa_mods_of c pep_id)
              (term_mods_of c pep_id)) as [[vs fs]|e] eqn:E; simpl in H;
    [|discriminate].
  inversion H; subst pv pf; clear H.
  destruct (resolve_hits_ok _ _ _ _ _ _ E) as [E1 El].
  destruct (resolve_all_ok _ _ _ _ _ _ _ E1) as (_ & _ & Hlen).
  simpl in Hlen. rewrite El in Hlen.
  destruct (count_mods_total vs) as [Hvs Hvp].
  destruct (count_mods_total fs) as [Hfs Hfp].
  split; [|split].
  - rewrite map_app, sum_app, Hvs, Hfs. lia.
  - apply Forall_app. split; assumption.
  - intro mod_list. destruct (count_mods_total mod_list) as [_ Hp].
    eapply Forall_impl; [|exact Hp]. simpl. intros o Ho. lia.
Qed.

Lemma counts_add_up_to_hits_witness :
  Py.sum (map count_of
            ([(2, "Oxidation"%string, PyTuple ["M"%string]);
              (1, "Phospho"%string, PyTuple ["S"; "T"; "Y"]%string)]
             ++ [(1, "TMT6plex"%string, PyTuple ["N-term"%string])]))
  = Z.of_nat (List.length (aa_mods_of Samples.labelled 1)
              + List.length (term_mods_of Samples.labelled 1))
  /\ Forall (fun o => 1 <= count_of o)
       ([(2, "Oxidation"%string, PyTuple ["M"%string]);
         (1, "Phospho"%string, PyTuple ["S"; "T"; "Y"]%string)]
        ++ [(1, "TMT6plex"%string, PyTuple ["N-term"%string])])
  /\ (forall mod_list : list pot_mod,
         Forall (fun o => 1 <= count_of o /\ count_of o <> 0)
           (_count_mods mod_list)).
Proof.
  apply (counts_add_up_to_hits Samples.labelled 1 "MSMK"%string
           [("Oxidation", "M"); ("Phospho", "STY")]%string
           [("TMT6plex", "N-term")]%string).
  reflexivity.
Defined.

(** C10.  A hit on an asparagine is resolved against a specification
    declared for the N-terminus alone, and a hit on a cysteine against one
    declared for the C-terminus alone: [_find_mod] looks for the residue
    letter inside the site-list string, and the letter N occurs in
    "N-term", the letter C in "C-term".  On the peptide ANK with an Acetyl
    hit on the asparagine and Acetyl declared as a variable N-terminal
    modification, the hit is returned as a variable N-terminal entry. *)
Theorem residue_hit_matches_terminal_spec :
  (forall (abbrev : string) (rest : list pot_mod),
      _find_mod abbrev "N" ((abbrev, "N-term"%string) :: rest)
      = Some (abbrev, "N-term"%string)
      /\ _find_mod abbrev "C" ((abbrev, "C-term"%string) :: rest)
         = Some (abbrev, "C-term"%string))
  /\ str_getitem "ANK" 1 = Ok "N"%string
  /\ Discoverer.parse_declaration "Acetyl (N-term)" = Ok ("Acetyl", "N-term")%string
  /\ _get_pep_mods Samples.asparagine 1 "ANK" [("Acetyl", "N-term")%string] []
     = Ok ([(1, "Acetyl"%string, PyTuple ["N-term"%string])], []).
Proof.
  split; [|repeat split; reflexivity].
  intros abbrev rest. simpl. rewrite String.eqb_refl. simpl. split; reflexivity.
Qed.

(* ================================================================= *)
(** ** Properties of the declaration parser ([RE_DYN_MODS]) *)

Lemma parse_all_raise (l : list string) (i : string) :
  In i l -> Re.re_match Regexes.RE_DYN_MODS i = None ->
  comprehension parse_declaration l = Raise AttributeError.
Proof.
  intros Hin Hno. induction l as [|j l IH]; [destruct Hin|].
  simpl. unfold parse_declaration at 1.
  destruct (Re.re_match Regexes.RE_DYN_MODS j) as [m|] eqn:E; simpl.
  - destruct Hin as [->|Hin]; [congruence|]. now rewrite (IH Hin).
  - reflexivity.
Qed.

Lemma parse_all_total (l : list string) :
  (exists pool, comprehension parse_declaration l = Ok pool)
  \/ comprehension parse_declaration l = Raise AttributeError.
Proof.
  induction l as [|j l IH]; simpl; [left; eauto|].
  unfold parse_declaration at 1 3.
  destruct (Re.re_match Regexes.RE_DYN_MODS j) as [m|]; simpl; [|now right].
  destruct IH as [[pool E]|E]; rewrite E; simpl; [left; eauto|now right].
Qed.

(* ================================================================= *)
(** ** Properties of the delivered collection ([_get_peptide_queries]) *)

Section SortedFacts.

Variable A : Type.
Variable key : A -> Z.

Let le_key (a b : A) : Prop := key a <= key b.

Lemma insert_length (x : A) (l : list A) :
  List.length (Collections.insert key x l) = S (List.length l).
Proof.
  induction l as [|y l IH]; simpl; [reflexivity|].
  destruct (key x <=? key y); simpl; [reflexivity|now rewrite IH].
Qed.

Lemma sorted_length (l : list A) :
  List.length (Collections.sorted key l) = List.length l.
Proof.
  induction l as [|x l IH]; simpl; [reflexivity|].
  now rewrite insert_length, IH.
Qed.

Lemma insert_permutation (x : A) (l : list A) :
  Permutation (x :: l) (Collections.insert key x l).
Proof.
  induction l as [|y l IH]; simpl; [apply Permutation_refl|].
  destruct (key x <=? key y); [apply Permutation_refl|].
  eapply Permutation_trans; [apply perm_swap|]. now apply perm_skip.
Qed.

Lemma sorted_permutation (l : list A) :
  Permutation l (Collections.sorted key l).
Proof.
  induction l as [|x l IH]; simpl; [constructor|].
  eapply Permutation_trans; [apply perm_skip; exact IH|].
  apply insert_permutation.
Qed.

Lemma insert_hd (a x : A) (l : list A) :
  HdRel le_key a l -> le_key a x -> HdRel le_key a (Collections.insert key x l).
Proof.
  intros Hl Hx. destruct l as [|y l]; simpl.
  - now constructor.
  - destruct (key x <=? key y); constructor; [assumption|].
    now inversion Hl.
Qed.

Lemma insert_sorted (x : A) (l : list A) :
  Sorted le_key l -> Sorted le_key (Collections.insert key x l).
Proof.
  induction 1 as [|y l Hs IH Hy]; simpl.
  - repeat constructor.
  - destruct (Z.leb_spec (key x) (key y)) as [Hle|Hgt].
    + constructor; [now constructor|]. constructor. exact Hle.
    + constructor; [exact IH|]. apply insert_hd; [exact Hy|].
      unfold le_key. lia.
Qed.

Lemma sorted_sorted (l : list A) : Sorted le_key (Collections.sorted key l).
Proof.
  induction l as [|x l IH]; simpl; [constructor|].
  apply insert_sorted. exact IH.
Qed.

End SortedFacts.

Lemma row_loop_length (c : cursor) (var_mods fixed_mods : list pot_mod)
    (rows : list row) (acc out : list PeptideQuery) :
  for_each (row_step c var_mods fixed_mods) rows acc = Ok out ->
  List.length out = (List.length acc + List.length rows)%nat.
Proof.
  revert acc. induction rows as [|r rows IH]; intros acc H; simpl in H.
  - inversion H; subst. simpl. lia.
  - unfold row_step in H at 1.
    destruct (_get_pep_mods c (pep_id r) (row_pep_seq r) var_mods fixed_mods)
      as [[pv pf]|e]; simpl in H; [|discriminate].
    destruct (parse_description (full_prot_desc r)) as [[accession prot_desc]|e];
      simpl in H; [|discriminate].
    destruct (new_PeptideQuery accession prot_desc (handle c) (row_filename r)
                (exp_mz r) (exp_z r) (row_pep_seq r) pv pf (row_scan r))
      as [q|e]; simpl in H; [|discriminate].
    rewrite (IH _ H), length_app. simpl. lia.
Qed.

(** C8 as the specification has it fails: two first-rank peptides of one
    spectrum that share accession, sequence and scan both reach the
    collection delivered, which then holds one identity tuple twice. *)
Lemma duplicate_identities_delivered :
  exists out,
    _get_peptide_queries Samples.isoforms [] ["Phospho (ST)"%string] = Ok out
    /\ List.length out = 2%nat
    /\ ~ NoDup (map _unique_tuple out).
Proof.
  eexists. split; [vm_compute; reflexivity|]. split; [reflexivity|].
  intro H. inversion H as [|t l Hnotin _]; subst.
  apply Hnotin. left. reflexivity.
Qed.

(** C8, amended.  The collection delivered is in ascending order of scan
    number and holds one record for every row of the peptide query: the
    rows are put in order, not deduplicated. *)
Theorem delivered_in_scan_order :
  forall (c : cursor) (fixed_mods var_mods : list string) (out : list PeptideQuery),
    _get_peptide_queries c fixed_mods var_mods = Ok out ->
    Sorted (fun a b => scan a <= scan b) out
    /\ List.length out = List.length (peptide_rows c).
Proof.
  intros c fixed_mods var_mods out H. unfold _get_peptide_queries in H.
  destruct (comprehension parse_declaration fixed_mods) as [fp|e];
    simpl in H; [|discriminate].
  destruct (comprehension parse_declaration var_mods) as [vp|e];
    simpl in H; [|discriminate].
  destruct (for_each (row_step c vp fp) (peptide_rows c) []) as [unsorted|e] eqn:E;
    simpl in H; [|discriminate].
  inversion H; subst out. split.
  - apply sorted_sorted.
  - rewrite sorted_length. now rewrite (row_loop_length _ _ _ _ _ _ E).
Qed.

Lemma delivered_in_scan_order_witness :
  exists out,
    _get_peptide_queries Samples.isoforms [] ["Phospho (ST)"%string] = Ok out
    /\ Sorted (fun a b => scan a <= scan b) out
    /\ List.length out = List.length (peptide_rows Samples.isoforms).
Proof.
  eexists. split; [vm_compute; reflexivity|].
  apply (delivered_in_scan_order Samples.isoforms [] ["Phospho (ST)"%string]).
  vm_compute. reflexivity.
Defined.

(* ================================================================= *)
(** ** Further properties of the resolver and the aggregator *)

Import GrammarSpec.

(** X1.  [_find_mod] returns the first specification of the pool whose
    name is the abbreviation and whose site list holds the letter, and
    [None] only when the pool has no such specification. *)
Theorem find_mod_first_match :
  forall (abbrev letter : string) (pot_mods : list pot_mod),
    let fits (p : pot_mod) := String.eqb (fst p) abbrev && str_in letter (snd p) in
    match _find_mod abbrev letter pot_mods with
    | Some m =>
        exists before after,
          pot_mods = before ++ m :: after
          /\ fst m = abbrev /\ str_in letter (snd m) = true
          /\ forallb (fun p => negb (fits p)) before = true
    | None => forallb (fun p => negb (fits p)) pot_mods = true
    end.
Proof.
  intros abbrev letter pot_mods fits.
  induction pot_mods as [|p pool IH]; simpl; [reflexivity|].
  destruct (String.eqb (fst p) abbrev && str_in letter (snd p)) eqn:E.
  - exists [], pool. apply andb_true_iff in E. destruct E as [E1 E2].
    apply String.eqb_eq in E1. repeat split; auto.
  - destruct (_find_mod abbrev letter pool) as [m|].
    + destruct IH as (before & after & -> & H1 & H2 & H3).
      exists (p :: before), after. repeat split; auto.
      simpl. unfold fits at 1. now rewrite E.
    + unfold fits at 1. now rewrite E.
Qed.

Lemma concat_chars (s : string) : String.concat "" (str_chars s) = s.
Proof.
  induction s as [|a s IH]; [reflexivity|].
  simpl. destruct (str_chars s) as [|x l] eqn:E.
  - destruct s; [reflexivity|discriminate].
  - simpl in IH |- *. now rewrite IH.
Qed.

Lemma parse_letters_joined (letters : string) :
  String.concat "" (items (_parse_letters letters)) = letters.
Proof.
  unfold _parse_letters.
  destruct (String.eqb letters "N-term" || String.eqb letters "C-term"); simpl.
  - reflexivity.
  - apply concat_chars.
Qed.

Lemma parse_letters_tuple (letters : string) :
  is_tuple (_parse_letters letters) = true.
Proof.
  unfold _parse_letters.
  now destruct (String.eqb letters "N-term" || String.eqb letters "C-term").
Qed.

Lemma parse_letters_injective (a b : string) :
  _parse_letters a = _parse_letters b -> a = b.
Proof.
  intro H. rewrite <- (parse_letters_joined a), <- (parse_letters_joined b).
  now rewrite H.
Qed.

Lemma str_chars_single (s : string) :
  Forall (fun i => String.length i = 1%nat) (str_chars s)
  /\ List.length (str_chars s) = String.length s.
Proof.
  induction s as [|a s [IH1 IH2]]; simpl; split; auto.
Qed.

(** X2.  [_parse_letters] always returns a tuple, and joining its items
    gives back the site list it was made from, so that two site lists
    with the same tuple are the same; a site list other than the two
    terminus tokens becomes one single-character item per character.  The
    copy in [search.py] returns the same. *)
Theorem parse_letters_round_trip :
  forall letters : string,
    is_tuple (_parse_letters letters) = true
    /\ String.concat "" (items (_parse_letters letters)) = letters
    /\ (forall other : string,
           _parse_letters other = _parse_letters letters -> other = letters)
    /\ (letters <> "N-term"%string -> letters <> "C-term"%string ->
        Forall (fun i => String.length i = 1%nat) (items (_parse_letters letters))
        /\ List.length (items (_parse_letters letters)) = String.length letters)
    /\ Search._parse_letters letters = _parse_letters letters.
Proof.
  intro letters. split; [apply parse_letters_tuple|].
  split; [apply parse_letters_joined|].
  split; [intros other H; now apply parse_letters_injective|].
  split; [|reflexivity].
  intros Hn Hc. unfold _parse_letters.
  apply String.eqb_neq in Hn, Hc. rewrite Hn, Hc. simpl.
  apply str_chars_single.
Qed.

Lemma parse_letters_round_trip_witness :
  Forall (fun i => String.length i = 1%nat) (items (_parse_letters "STY"))
  /\ List.length (items (_parse_letters "STY")) = String.length "STY".
Proof.
  apply (proj1 (proj2 (proj2 (proj2 (parse_letters_round_trip "STY"%string)))));
    discriminate.
Defined.

Lemma pot_mod_eqb_eq (a b : pot_mod) : pot_mod_eqb a b = true <-> a = b.
Proof.
  destruct a as [a1 a2], b as [b1 b2]. unfold pot_mod_eqb. simpl.
  rewrite andb_true_iff, !String.eqb_eq. split.
  - intros [-> ->]. reflexivity.
  - intro H. inversion H. auto.
Qed.

Section CounterSpec.

Variable K : Type.
Variable K_eqb : K -> K -> bool.
Variable K_dec : forall a b : K, {a = b} + {a <> b}.
Hypothesis K_eqb_eq : forall a b, K_eqb a b = true <-> a = b.

Lemma K_eqb_false (a b : K) : K_eqb a b = false -> a <> b.
Proof.
  intros E H. apply (proj2 (K_eqb_eq a b)) in H. congruence.
Qed.

Lemma incr_keys (elem : K) (c : list (K * Z)) :
  map fst (Collections.incr K_eqb elem c)
  = if in_dec K_dec elem (map fst c) then map fst c else map fst c ++ [elem].
Proof.
  induction c as [|[k n] c IH]; simpl; [reflexivity|].
  destruct (K_eqb k elem) eqn:E.
  - apply K_eqb_eq in E. subst k. simpl.
    destruct (K_dec elem elem) as [e|N]; [reflexivity|contradiction].
  - pose proof (K_eqb_false _ _ E) as N.
    simpl. rewrite IH.
    destruct (K_dec k elem) as [H|N']; [contradiction|].
    destruct (in_dec K_dec elem (map fst c)); reflexivity.
Qed.

Lemma incr_nodup (elem : K) (c : list (K * Z)) :
  NoDup (map fst c) -> NoDup (map fst (Collections.incr K_eqb elem c)).
Proof.
  intro H. rewrite incr_keys.
  destruct (in_dec K_dec elem (map fst c)) as [|N]; [assumption|].
  apply NoDup_app; [assumption|repeat constructor; intros []|].
  intros x Hx [<-|[]]. contradiction.
Qed.

(** An entry of the counter after one more element: new with count 1,
    raised by 1, or untouched. *)
Lemma incr_In (elem : K) (c : list (K * Z)) (k : K) (n : Z) :
  NoDup (map fst c) ->
  In (k, n) (Collections.incr K_eqb elem c) ->
  (k = elem /\ ((n = 1 /\ ~ In elem (map fst c)) \/ In (k, n - 1) c))
  \/ (k <> elem /\ In (k, n) c).
Proof.
  induction c as [|[k0 n0] c IH]; simpl; intros Hnd Hin.
  - destruct Hin as [H|[]]. inversion H; subst. left. split; auto.
  - inversion Hnd as [|? ? Hnot Hnd']; subst.
    destruct (K_eqb k0 elem) eqn:E.
    + apply K_eqb_eq in E. subst k0.
      destruct Hin as [H|H].
      * inversion H; subst. left. split; auto. right. left.
        f_equal. lia.
      * destruct (K_dec k elem) as [->|N].
        -- exfalso. apply Hnot. change elem with (fst (elem, n)).
           now apply in_map.
        -- right. split; auto.
    + pose proof (K_eqb_false _ _ E) as N0.
      destruct Hin as [H|H].
      * inversion H; subst. right. split; auto.
      * destruct (IH Hnd' H) as [[-> [[Hn Hno]|Hc]]|[Hk Hc]].
        -- left. split; auto. left. split; auto.
           intros [Hf|Hf]; contradiction.
        -- left. split; auto.
        -- right. split; auto.
Qed.

(** The counter after the elements of [l], started from [c]: an entry
    was in [c] and has been raised by the occurrences of its key in [l],
    or is new and holds those occurrences. *)
Lemma counter_from_spec (l : list K) (c : list (K * Z)) :
  NoDup (map fst c) ->
  let c' := fold_left (fun c elem => Collections.incr K_eqb elem c) l c in
  NoDup (map fst c')
  /\ (forall k n, In (k, n) c' ->
        In (k, n - Z.of_nat (count_occ K_dec l k)) c
        \/ (~ In k (map fst c) /\ n = Z.of_nat (count_occ K_dec l k) /\ In k l))
  /\ (forall k, In k l \/ In k (map fst c) -> In k (map fst c')).
Proof.
  revert c. induction l as [|x l IH]; intros c Hnd; cbn [fold_left].
  - split; [assumption|]. split; [|intros k [[]|H]; exact H].
    intros k n H. left. simpl. now replace (n - 0) with n by lia.
  - destruct (IH _ (incr_nodup x c Hnd)) as (H1 & H2 & H3).
    split; [exact H1|]. split.
    + intros k n Hin. destruct (H2 k n Hin) as [Hc|(Hno & Hn & Hl)].
      * destruct (incr_In _ _ _ _ Hnd Hc) as [[-> [[Hn Hno]|Hc']]|[Hk Hc']].
        -- right. rewrite count_occ_cons_eq by reflexivity.
           repeat split; [assumption|lia|now left].
        -- left. rewrite count_occ_cons_eq by reflexivity.
           replace (n - Z.of_nat (S (count_occ K_dec l x)))
             with (n - Z.of_nat (count_occ K_dec l x) - 1) by lia.
           exact Hc'.
        -- left. rewrite count_occ_cons_neq by congruence. exact Hc'.
      * right. rewrite incr_keys in Hno.
        assert (x <> k /\ ~ In k (map fst c)) as [N Hk].
        { destruct (in_dec K_dec x (map fst c)) as [Hx|Hx].
          - split; [intros ->; contradiction|assumption].
          - split.
            + intros ->. apply Hno, in_or_app. right. now left.
            + intro Hk. apply Hno, in_or_app. now left. }
        rewrite count_occ_cons_neq by assumption.
        repeat split; [assumption|assumption|now right].
    + intros k Hk. apply H3. rewrite incr_keys.
      destruct (in_dec K_dec x (map fst c)) as [Hx|Hx].
      * destruct Hk as [[<-|Hk]|Hk]; auto.
      * destruct Hk as [[<-|Hk]|Hk]; auto; right; apply in_or_app; auto.
        right. now left.
Qed.

(** [Counter(l).items()]: one entry per distinct element of [l], holding
    the number of its occurrences. *)
Lemma Counter_spec (l : list K) :
  NoDup (map fst (Collections.Counter K_eqb l))
  /\ (forall k n, In (k, n) (Collections.Counter K_eqb l) ->
        n = Z.of_nat (count_occ K_dec l k) /\ In k l)
  /\ (forall k, In k l -> In k (map fst (Collections.Counter K_eqb l))).
Proof.
  destruct (counter_from_spec l [] (NoDup_nil _)) as (H1 & H2 & H3).
  split; [exact H1|]. split.
  - intros k n Hin. destruct (H2 k n Hin) as [[]|(_ & Hn & Hl)]. auto.
  - intros k Hk. apply H3. now left.
Qed.

End CounterSpec.

Lemma NoDup_map_injective {A B : Type} (g : A -> B) (l : list A) :
  (forall x y, g x = g y -> x = y) -> NoDup l -> NoDup (map g l).
Proof.
  intros Hg. induction 1 as [|x l Hx Hl IH]; simpl; constructor; [|exact IH].
  intro Hin. apply in_map_iff in Hin. destruct Hin as (y & Hy & Hin).
  apply Hg in Hy. subst y. contradiction.
Qed.

(** X3.  [_count_mods] returns one entry for every distinct pair
    (abbreviation, site list) of its input and no other: the entry holds
    the number of times the pair occurs in the input and the tuple made
    from the site list, and no two entries stand for the same pair. *)
Theorem count_mods_counts_occurrences :
  forall mod_list : list pot_mod,
    Forall
      (fun o : mod_entry =>
         exists letters : string,
           snd o = _parse_letters letters
           /\ In (snd (fst o), letters) mod_list
           /\ count_of o
              = Z.of_nat (count_occ pot_mod_dec mod_list (snd (fst o), letters)))
      (_count_mods mod_list)
    /\ NoDup (map key_of (_count_mods mod_list))
    /\ Forall
         (fun m : pot_mod =>
            In (Z.of_nat (count_occ pot_mod_dec mod_list m), fst m,
                _parse_letters (snd m))
              (_count_mods mod_list))
         mod_list.
Proof.
  intro mod_list.
  destruct (Counter_spec pot_mod pot_mod_eqb pot_mod_dec pot_mod_eqb_eq mod_list)
    as (Hnd & Hin & Hall).
  unfold _count_mods. split; [|split].
  - apply Forall_forall. intros o Ho. apply in_map_iff in Ho.
    destruct Ho as ([[abbrev letters] n] & <- & Hc).
    destruct (Hin _ _ Hc) as [Hn Hl]. exists letters. simpl. auto.
  - assert (map key_of
              (map (fun '((abbrev, letters), count) =>
                      (count, abbrev, _parse_letters letters))
                 (Collections.Counter pot_mod_eqb mod_list))
            = map (fun m : pot_mod => (fst m, _parse_letters (snd m)))
                (map fst (Collections.Counter pot_mod_eqb mod_list))) as E.
    { rewrite !map_map. apply map_ext. intros [[abbrev letters] n]. reflexivity. }
    rewrite E. apply NoDup_map_injective; [|exact Hnd].
    intros [a1 l1] [a2 l2] H. simpl in H. inversion H as [[Ha Hl]].
    apply parse_letters_injective in Hl. now subst.
  - apply Forall_forall. intros [abbrev letters] Hm.
    pose proof (Hall _ Hm) as Hk. apply in_map_iff in Hk.
    destruct Hk as ([[a l] n] & Hfst & Hc). simpl in Hfst. inversion Hfst; subst.
    destruct (Hin _ _ Hc) as [Hn _]. subst n.
    apply in_map_iff. exists ((abbrev, letters), Z.of_nat (count_occ pot_mod_dec mod_list (abbrev, letters))).
    split; [reflexivity|exact Hc].
Qed.

Lemma check_mods_count_mods (mod_list : list pot_mod) :
  _check_mods (_count_mods mod_list) = true.
Proof.
  unfold _check_mods, _count_mods. apply forallb_forall.
  intros o Ho. apply in_map_iff in Ho.
  destruct Ho as ([[abbrev letters] n] & <- & _). apply parse_letters_tuple.
Qed.

Lemma get_pep_mods_checked (c : cursor) (pep_id : Z) (pep_seq : string)
    (var_mods fixed_mods : list pot_mod) (pv pf : list mod_entry) :
  _get_pep_mods c pep_id pep_seq var_mods fixed_mods = Ok (pv, pf) ->
  _check_mods pv = true /\ _check_mods pf = true.
Proof.
  unfold _get_pep_mods.
  destruct (resolve_hits _ _ _ _ _) as [[vs fs]|e]; simpl; [|discriminate].
  intro H. inversion H; subst. split; apply check_mods_count_mods.
Qed.

(** X4.  The two assertions of the [PeptideQuery] constructor hold for
    the lists that [_get_pep_mods] returns: every entry that
    [_count_mods] makes carries a tuple, so that [_check_mods] accepts the
    variable and the fixed list of every resolved peptide and the
    constructor does not end in an [AssertionError] on them. *)
Theorem constructor_assertions_hold :
  forall (c : cursor) (pep_id : Z) (pep_seq : string)
         (var_mods fixed_mods : list pot_mod)
         (pep_var_mods pep_fixed_mods : list mod_entry),
    _get_pep_mods c pep_id pep_seq var_mods fixed_mods
    = Ok (pep_var_mods, pep_fixed_mods) ->
    _check_mods pep_var_mods = true
    /\ _check_mods pep_fixed_mods = true
    /\ Forall (fun o : mod_entry => exists ts, snd o = PyTuple ts)
         (pep_var_mods ++ pep_fixed_mods)
    /\ (forall (gi protein : string) (query : Z) (filename : string)
               (mz : float) (z scan : Z),
           new_PeptideQuery gi protein query filename mz z pep_seq
             pep_var_mods pep_fixed_mods scan
           <> Raise AssertionError).
Proof.
  intros c pep_id pep_seq var_mods fixed_mods pv pf H.
  destruct (get_pep_mods_checked _ _ _ _ _ _ _ H) as [Cv Cf].
  split; [exact Cv|]. split; [exact Cf|]. split.
  - apply Forall_forall. intros [[count abbrev] letters] Hin. simpl.
    assert (is_tuple letters = true) as Ht.
    { apply in_app_or in Hin. destruct Hin as [Hin|Hin];
        [exact (check_mods_In _ _ _ _ Cv Hin)|exact (check_mods_In _ _ _ _ Cf Hin)]. }
    destruct letters as [ts|ts]; [eauto|simpl in Ht; discriminate].
  - intros. rewrite (new_PeptideQuery_ok _ _ _ _ _ _ _ _ _ _ Cv Cf). discriminate.
Qed.

Lemma constructor_assertions_hold_witness :
  _check_mods [(2, "Oxidation"%string, PyTuple ["M"%string]);
               (1, "Phospho"%string, PyTuple ["S"; "T"; "Y"]%string)] = true
  /\ _check_mods [(1, "TMT6plex"%string, PyTuple ["N-term"%string])] = true
  /\ Forall (fun o : mod_entry => exists ts, snd o = PyTuple ts)
       ([(2, "Oxidation"%string, PyTuple ["M"%string]);
         (1, "Phospho"%string, PyTuple ["S"; "T"; "Y"]%string)]
        ++ [(1, "TMT6plex"%string, PyTuple ["N-term"%string])])
  /\ (forall (gi protein : string) (query : Z) (filename : string)
             (mz : float) (z scan : Z),
         new_PeptideQuery gi protein query filename mz z "MSMK"
           [(2, "Oxidation"%string, PyTuple ["M"%string]);
            (1, "Phospho"%string, PyTuple ["S"; "T"; "Y"]%string)]
           [(1, "TMT6plex"%string, PyTuple ["N-term"%string])] scan
         <> Raise AssertionError).
Proof.
  apply (constructor_assertions_hold Samples.labelled 1 "MSMK"%string
           [("Oxidation", "M"); ("Phospho", "STY")]%string
           [("TMT6plex", "N-term")]%string).
  reflexivity.
Defined.

(* ================================================================= *)
(** ** Further properties of the enumerator *)

Lemma sum_permutation (l l' : list Z) :
  Permutation l l' -> Py.sum l = Py.sum l'.
Proof.
  induction 1 as [|x l l' _ IH|x y l|l l' l'' _ IH1 _ IH2].
  - reflexivity.
  - rewrite !sum_cons, IH. reflexivity.
  - rewrite !sum_cons. lia.
  - now rewrite IH1.
Qed.

(** The entries that pass a test, in a reordered list. *)
Lemma kept_entries_permutation (keep : mod_entry -> bool)
    (mods mods' : list mod_entry) :
  Permutation mods mods' -> Permutation (filter keep mods) (filter keep mods').
Proof.
  induction 1 as [|o mods mods' _ IH|o o' mods|mods mods' mods'' _ IH1 _ IH2];
    simpl.
  - constructor.
  - destruct (keep o); [now constructor|exact IH].
  - destruct (keep o), (keep o'); try apply Permutation_refl. apply perm_swap.
  - eapply Permutation_trans; eassumption.
Qed.

Lemma potential_mod_sites_permutation (pep_seq : string)
    (mods mods' : list mod_entry) (mod_ : string) (letters : pyseq) :
  Permutation mods mods' ->
  potential_mod_sites pep_seq mods mod_ letters
  = potential_mod_sites pep_seq mods' mod_ letters.
Proof.
  intro H. unfold potential_mod_sites. rewrite !subtract_competitors_filter.
  f_equal. apply sum_permutation, Permutation_map, kept_entries_permutation, H.
Qed.

(** The outer loop multiplies the running product by one factor per
    entry. *)
Lemma calc_loop_product (pep_seq : string) (mods todo : list mod_entry) (acc : Z) :
  calc_loop pep_seq mods todo acc
  = acc * fold_right Z.mul 1
            (map (fun o : mod_entry =>
                    Utils.nCr (potential_mod_sites pep_seq mods (snd (fst o)) (snd o))
                      (count_of o))
               todo).
Proof.
  unfold calc_loop. revert acc.
  induction todo as [|[[count mod_] letters] todo IH]; intro acc; simpl; [lia|].
  rewrite IH. unfold count_of. simpl. lia.
Qed.

Lemma product_permutation (l l' : list Z) :
  Permutation l l' -> fold_right Z.mul 1 l = fold_right Z.mul 1 l'.
Proof.
  induction 1 as [|x l l' _ IH|x y l|l l' l'' _ IH1 _ IH2]; simpl.
  - reflexivity.
  - now rewrite IH.
  - lia.
  - now rewrite IH1.
Qed.

(** X5.  The number of combinations does not depend on the order of the
    variable entries: a list with the same entries in another order gives
    the same [num_comb]. *)
Theorem num_comb_order_independent :
  forall (pep_seq : string) (mods mods' : list mod_entry),
    Permutation mods mods' ->
    _calc_num_comb pep_seq mods = _calc_num_comb pep_seq mods'.
Proof.
  intros pep_seq mods mods' H. unfold _calc_num_comb.
  rewrite !calc_loop_product. f_equal.
  transitivity
    (fold_right Z.mul 1
       (map (fun o : mod_entry =>
               Utils.nCr (potential_mod_sites pep_seq mods' (snd (fst o)) (snd o))
                 (count_of o))
          mods)).
  - f_equal. apply map_ext. intros [[count mod_] letters]. simpl.
    now rewrite (potential_mod_sites_permutation _ _ _ _ _ H).
  - apply product_permutation, Permutation_map, H.
Qed.

Lemma num_comb_order_independent_witness :
  _calc_num_comb "MSMK"
    [(2, "Oxidation"%string, PyTuple ["M"%string]);
     (1, "Phospho"%string, PyTuple ["S"; "T"; "Y"]%string)]
  = _calc_num_comb "MSMK"
      [(1, "Phospho"%string, PyTuple ["S"; "T"; "Y"]%string);
       (2, "Oxidation"%string, PyTuple ["M"%string])].
Proof.
  apply (num_comb_order_independent "MSMK"%string
           [(2, "Oxidation"%string, PyTuple ["M"%string]);
            (1, "Phospho"%string, PyTuple ["S"; "T"; "Y"]%string)]
           [(1, "Phospho"%string, PyTuple ["S"; "T"; "Y"]%string);
            (2, "Oxidation"%string, PyTuple ["M"%string])]).
  apply perm_swap.
Defined.

Lemma count_from_absent (sub : string) (s : string) :
  str_in sub s = false -> forall skip, count_from sub skip s = 0.
Proof.
  induction s as [|a s IH]; intros H skip; [reflexivity|].
  cbn [str_in] in H. apply orb_false_iff in H. destruct H as [Hp Hs].
  cbn [count_from]. destruct skip as [|k]; [rewrite Hp|]; apply IH; exact Hs.
Qed.

Lemma str_count_absent (s sub : string) :
  sub <> EmptyString -> str_in sub s = false -> str_count s sub = 0.
Proof.
  intros Hne H. unfold str_count. apply String.eqb_neq in Hne. rewrite Hne.
  now apply count_from_absent.
Qed.

Lemma competitors_nonnegative (mods : list mod_entry) (f : mod_entry -> bool) :
  Forall (fun o => 0 <= count_of o) mods ->
  0 <= Py.sum (map count_of (filter f mods)).
Proof.
  induction 1 as [|o mods Ho _ IH]; simpl.
  - change (Py.sum []) with 0. lia.
  - destruct (f o); [simpl; rewrite sum_cons; lia|exact IH].
Qed.

(** X6.  The sites of a variable entry are counted with [pep_seq.count],
    which finds a terminus token nowhere in a sequence of residue
    letters: a variable modification of the N- or C-terminus with a count
    of at least 1 has no site available, and [num_comb] is 0 (the factor
    [nCr(available, count)] with [count > available] is 0, as the
    specification gives [nCr]). *)
Theorem terminal_variable_mod_gives_zero :
  forall (pep_seq : string) (mods : list mod_entry) (count : Z)
         (abbrev token : string),
    token = "N-term"%string \/ token = "C-term"%string ->
    str_in token pep_seq = false ->
    Forall (fun o => 0 <= count_of o) mods ->
    In (count, abbrev, PyTuple [token]) mods ->
    1 <= count ->
    site_count pep_seq (PyTuple [token]) = 0
    /\ potential_mod_sites pep_seq mods abbrev (PyTuple [token]) <= 0
    /\ _calc_num_comb pep_seq mods = 0.
Proof.
  intros pep_seq mods count abbrev token Htok Habs Hpos Hin Hcount.
  assert (token <> EmptyString) as Hne by (destruct Htok; subst; discriminate).
  assert (site_count pep_seq (PyTuple [token]) = 0) as Hsites.
  { unfold site_count. simpl. rewrite sum_cons.
    rewrite (str_count_absent _ _ Hne Habs). reflexivity. }
  assert (potential_mod_sites pep_seq mods abbrev (PyTuple [token]) <= 0) as Hle.
  { unfold potential_mod_sites.
    rewrite (effective_letters_tuple abbrev (PyTuple [token]) eq_refl).
    rewrite subtract_competitors_filter, Hsites.
    match goal with
    | |- _ - ?x <= _ =>
        assert (0 <= x) as Hx by (apply competitors_nonnegative; exact Hpos);
        revert Hx; generalize x
    end.
    intros x Hx. lia. }
  repeat split; try assumption.
  unfold _calc_num_comb. eapply calc_loop_zero_factor; [exact Hin|].
  apply nCr_short. lia.
Qed.

Lemma terminal_variable_mod_gives_zero_witness :
  site_count "MSMK" (PyTuple ["N-term"%string]) = 0
  /\ potential_mod_sites "MSMK"
       [(1, "TMT6plex"%string, PyTuple ["N-term"%string]);
        (1, "Oxidation"%string, PyTuple ["M"%string])]
       "TMT6plex" (PyTuple ["N-term"%string]) <= 0
  /\ _calc_num_comb "MSMK"
       [(1, "TMT6plex"%string, PyTuple ["N-term"%string]);
        (1, "Oxidation"%string, PyTuple ["M"%string])] = 0.
Proof.
  apply (terminal_variable_mod_gives_zero "MSMK"%string
           [(1, "TMT6plex"%string, PyTuple ["N-term"%string]);
            (1, "Oxidation"%string, PyTuple ["M"%string])]
           1 "TMT6plex"%string "N-term"%string).
  - left. reflexivity.
  - reflexivity.
  - repeat constructor; unfold count_of; simpl; lia.
  - simpl. left. reflexivity.
  - lia.
Defined.

Lemma single_character (i : string) :
  String.length i = 1%nat -> exists c, i = String c EmptyString.
Proof.
  destruct i as [|c [|d i]]; simpl; intro H; try discriminate. eauto.
Qed.

Lemma str_count_character (s : string) (c : ascii) :
  str_count s (String c EmptyString)
  = Z.of_nat (count_occ string_dec (str_chars s) (String c EmptyString)).
Proof.
  unfold str_count. simpl String.eqb. cbv iota.
  induction s as [|a s IH]; [reflexivity|].
  cbn [count_from str_chars count_occ String.prefix String.length Nat.sub].
  destruct (ascii_dec c a) as [->|N].
  - destruct (string_dec (String a EmptyString) (String a EmptyString)) as [_|F];
      [|contradiction].
    assert (String.prefix EmptyString s = true) as P by (destruct s; reflexivity).
    rewrite P, IH. lia.
  - destruct (string_dec (String a EmptyString) (String c EmptyString)) as [E|_];
      [inversion E; congruence|].
    exact IH.
Qed.

Lemma count_occ_chars_long (s token : string) :
  String.length token <> 1%nat -> count_occ string_dec (str_chars s) token = 0%nat.
Proof.
  intro H. induction s as [|a s IH]; [reflexivity|].
  cbn [str_chars count_occ].
  destruct (string_dec (String a EmptyString) token) as [E|N]; [|exact IH].
  subst token. simpl in H. contradiction.
Qed.

(** X7.  [_count_instances] counts a terminus token once, whatever the
    sequence, and a residue letter by its occurrences in the sequence; on
    letters that are single characters it gives what [_calc_num_comb]
    counts with [pep_seq.count]. *)
Theorem count_instances_spec :
  (forall (pep_seq : string) (letters : pyseq),
      Forall (fun i => String.length i = 1%nat) (items letters) ->
      _count_instances pep_seq letters = site_count pep_seq letters)
  /\ (forall pep_seq : string,
         _count_instances pep_seq (PyTuple ["N-term"%string]) = 1
         /\ _count_instances pep_seq (PyTuple ["C-term"%string]) = 1
         /\ _count_instances pep_seq (PyTuple ["N-term"; "C-term"]%string) = 2).
Proof.
  split.
  - intros pep_seq letters H. unfold _count_instances, site_count.
    f_equal. induction H as [|i l Hi _ IH]; [reflexivity|].
    cbn [map]. rewrite IH. f_equal.
    destruct (single_character i Hi) as [c ->].
    rewrite str_count_character, !count_occ_app.
    rewrite (proj1 (count_occ_not_In string_dec ["N-term"%string] (String c EmptyString)))
      by (intros [F|[]]; discriminate).
    rewrite (proj1 (count_occ_not_In string_dec ["C-term"%string] (String c EmptyString)))
      by (intros [F|[]]; discriminate).
    lia.
  - intro pep_seq. unfold _count_instances. cbn [items map].
    rewrite !sum_cons, !count_occ_app.
    rewrite !count_occ_chars_long by (simpl; discriminate).
    change (Py.sum []) with 0. simpl. repeat split; lia.
Qed.

Lemma count_instances_spec_witness :
  _count_instances "MSTMK" (PyTuple ["S"; "T"; "Y"]%string)
  = site_count "MSTMK" (PyTuple ["S"; "T"; "Y"]%string).
Proof.
  apply (proj1 count_instances_spec "MSTMK"%string (PyTuple ["S"; "T"; "Y"]%string)).
  repeat constructor.
Defined.

(* ================================================================= *)
(** ** What the two patterns accept *)

Lemma run_lit {R : Type} (p s : string) (pos : nat) (caps : Re.captures)
    (k : string -> nat -> Re.captures -> option R) :
  Re.run R (Re.lit p) (p ++ s) pos caps k = k s (pos + String.length p)%nat caps.
Proof.
  revert pos. induction p as [|c p IH]; intro pos; simpl.
  - now rewrite Nat.add_0_r.
  - rewrite Ascii.eqb_refl, IH. now rewrite Nat.add_succ_r.
Qed.

Lemma run_lit_prefix {R : Type} (p s : string) (pos : nat) (caps : Re.captures)
    (k : string -> nat -> Re.captures -> option R) (m : R) :
  Re.run R (Re.lit p) s pos caps k = Some m -> String.prefix p s = true.
Proof.
  revert s pos. induction p as [|c p IH]; intros s pos H.
  - destruct s; reflexivity.
  - simpl in H. destruct s as [|a s]; [discriminate|].
    destruct (Ascii.eqb a c) eqn:E; [|discriminate].
    apply Ascii.eqb_eq in E. subst a. simpl.
    destruct (ascii_dec c c) as [_|N]; [|contradiction].
    exact (IH _ _ H).
Qed.

Lemma greedy_all_fail {R : Type} (c : Re.cls) (k : string -> nat -> option R)
    (rest : string) :
  forall pos : nat,
    (forall b1 b2,
        rest = (b1 ++ b2)%string -> b1 <> EmptyString ->
        str_forall (Re.accepts c) b1 = true ->
        k b2 (pos + String.length b1)%nat = None) ->
    Re.greedy R c k rest pos = None.
Proof.
  induction rest as [|x r IH]; intros pos H; simpl; [reflexivity|].
  destruct (Re.accepts c x) eqn:A; [|reflexivity].
  rewrite IH.
  - specialize (H (String x EmptyString) r eq_refl).
    simpl in H. rewrite A in H. rewrite Nat.add_1_r in H.
    apply H; [discriminate|reflexivity].
  - intros b1 b2 Hr Hne Hall.
    specialize (H (String x b1) b2). simpl in H. rewrite A, Hall in H.
    rewrite Nat.add_succ_r in H. apply H; [now rewrite Hr|discriminate|reflexivity].
Qed.

(** The run [a] is what [c+] takes when the match goes through behind it
    and behind no longer run. *)
Lemma greedy_first_success {R : Type} (c : Re.cls) (k : string -> nat -> option R)
    (a rest : string) (m : R) :
  forall pos : nat,
    a <> EmptyString ->
    str_forall (Re.accepts c) a = true ->
    k rest (pos + String.length a)%nat = Some m ->
    (forall b1 b2,
        rest = (b1 ++ b2)%string -> b1 <> EmptyString ->
        str_forall (Re.accepts c) b1 = true ->
        k b2 (pos + String.length a + String.length b1)%nat = None) ->
    Re.greedy R c k (a ++ rest) pos = Some m.
Proof.
  induction a as [|x a IH]; intros pos Hne Hall Hk Hfail; [contradiction|].
  simpl in Hall. apply andb_true_iff in Hall. destruct Hall as [A Hall].
  simpl. rewrite A. simpl String.length in Hk, Hfail.
  rewrite Nat.add_succ_r in Hk.
  destruct a as [|y a'].
  - simpl. rewrite Nat.add_0_r in Hk.
    rewrite greedy_all_fail; [exact Hk|].
    intros b1 b2 Hr Hb Hb1. specialize (Hfail b1 b2 Hr Hb Hb1).
    now rewrite Nat.add_succ_r, Nat.add_0_r in Hfail.
  - rewrite (IH (S pos)); try assumption; [reflexivity|discriminate|].
    intros b1 b2 Hr Hb Hb1. specialize (Hfail b1 b2 Hr Hb Hb1).
    now rewrite Nat.add_succ_r in Hfail.
Qed.

(** The same when what follows the run starts with a character that [c]
    turns down, or is empty. *)
Lemma greedy_stops {R : Type} (c : Re.cls) (k : string -> nat -> option R)
    (a rest : string) (m : R) (pos : nat) :
  a <> EmptyString ->
  str_forall (Re.accepts c) a = true ->
  match rest with
  | EmptyString => True
  | String x _ => Re.accepts c x = false
  end ->
  k rest (pos + String.length a)%nat = Some m ->
  Re.greedy R c k (a ++ rest) pos = Some m.
Proof.
  intros Hne Hall Hrest Hk. apply greedy_first_success; try assumption.
  intros b1 b2 Hr Hb Hb1. exfalso.
  destruct b1 as [|x b1]; [contradiction|].
  subst rest. simpl in Hrest, Hb1. rewrite Hrest in Hb1. discriminate.
Qed.

Lemma substring_prefix (a rest : string) :
  substring 0 (String.length a) (a ++ rest) = a.
Proof.
  induction a as [|x a IH]; simpl.
  - destruct rest; reflexivity.
  - now rewrite IH.
Qed.

Lemma add_sub_left (pos n : nat) : (pos + n - pos)%nat = n.
Proof. lia. Qed.

Lemma append_empty (s : string) : (s ++ "")%string = s.
Proof. induction s as [|a s IH]; simpl; [reflexivity|now rewrite IH]. Qed.

Lemma str_has_app (c : ascii) (a b : string) :
  str_has c (a ++ b) = str_has c a || str_has c b.
Proof.
  induction a as [|x a IH]; simpl; [reflexivity|].
  rewrite IH. now rewrite orb_assoc.
Qed.

(** The description group and the end of the line. *)
Lemma description_tail (desc : string) (pos : nat) (caps : Re.captures) :
  str_forall (Re.accepts Re.Any) desc = true ->
  Re.run Re.captures (Re.Cat (Re.Group 2 (Re.Star Re.Any)) Re.Eol) desc pos caps
    (fun _ _ caps' => Some caps')
  = Some (Re.set_group 2 desc caps).
Proof.
  intro Hall. cbn [Re.run].
  destruct desc as [|x desc].
  - simpl. now rewrite Nat.sub_diag.
  - rewrite <- (append_empty (String x desc)) at 1.
    erewrite greedy_stops; [reflexivity|discriminate|exact Hall|exact I|].
    simpl Re.run. rewrite add_sub_left.
    rewrite <- (append_empty (String x desc)) at 2.
    now rewrite substring_prefix.
Qed.

(** X8.  A description line of the form ">sp|" identifier "|" accession
    " " text, with a non-empty alphanumeric identifier, a non-empty
    accession of alphanumeric characters and underscores and a text
    without a line break, is split into the accession and the text. *)
Theorem description_of_swissprot_entry :
  forall id accession text : string,
    id <> EmptyString -> str_forall (Re.accepts alnum) id = true ->
    accession <> EmptyString -> str_forall (Re.accepts alnum_) accession = true ->
    str_forall (Re.accepts Re.Any) text = true ->
    parse_description (">sp|" ++ id ++ "|" ++ accession ++ " " ++ text)
    = Ok (accession, text).
Proof.
  intros id accession text Hid Aid Hacc Aacc Atext.
  assert (Re.re_match Regexes.RE_DESCRIPTION
            (">sp|" ++ id ++ "|" ++ accession ++ " " ++ text)
          = Some (Re.set_group 2 text (Re.set_group 1 accession Re.no_captures)))
    as E.
  { unfold Re.re_match, Regexes.RE_DESCRIPTION.
    cbn [Re.run]. simpl Nat.eqb. cbv iota.
    rewrite run_lit. cbn [Re.run].
    apply greedy_stops; [exact Hid|exact Aid|reflexivity|].
    rewrite run_lit. cbn [Re.run].
    apply greedy_stops; [exact Hacc|exact Aacc|reflexivity|].
    rewrite run_lit, add_sub_left, substring_prefix.
    apply description_tail. exact Atext. }
  unfold parse_description. rewrite E. reflexivity.
Qed.

Lemma description_of_swissprot_entry_witness :
  parse_description (">sp|" ++ "P04049" ++ "|" ++ "RAF1_HUMAN" ++ " "
                     ++ "RAF proto-oncogene OS=Homo sapiens")
  = Ok ("RAF1_HUMAN", "RAF proto-oncogene OS=Homo sapiens")%string.
Proof.
  apply (description_of_swissprot_entry "P04049"%string "RAF1_HUMAN"%string
           "RAF proto-oncogene OS=Homo sapiens"%string);
    (discriminate || reflexivity).
Defined.

(** A split of " (" sites ")" behind its first character that leaves a
    rest starting with " (" needs an opening parenthesis in the sites. *)
Lemma later_opening (sites b1 b2 : string) :
  (" (" ++ sites ++ ")")%string = (b1 ++ b2)%string ->
  b1 <> EmptyString ->
  String.prefix " (" b2 = true ->
  str_has "(" sites = true.
Proof.
  intros Hs Hne Hp.
  destruct b1 as [|x b1]; [contradiction|].
  simpl in Hs. inversion Hs as [[Hx Hrest]]. clear Hs Hx.
  destruct b2 as [|u [|v b2]]; cbn [String.prefix] in Hp; try discriminate.
  { destruct (ascii_dec " " u); discriminate. }
  destruct (ascii_dec " " u) as [<-|]; [|discriminate].
  destruct (ascii_dec "(" v) as [<-|]; [|discriminate].
  destruct b1 as [|y b1]; simpl in Hrest; [discriminate|].
  inversion Hrest as [[Hy Hrest']].
  assert (str_has "(" (sites ++ ")") = true) as H.
  { rewrite Hrest', str_has_app. simpl. now rewrite orb_true_r. }
  rewrite str_has_app in H. simpl in H. now rewrite orb_false_r in H.
Qed.

(** The name, the site list and the parentheses of a declaration. *)
Lemma declaration_body (name sites : string) (pos : nat) (caps : Re.captures) :
  name <> EmptyString -> str_forall (Re.accepts Re.Any) name = true ->
  sites <> EmptyString -> str_forall (Re.accepts Re.Any) sites = true ->
  str_has "(" sites = false ->
  Re.run Re.captures
    (Re.Cat (Re.Group 3 (Re.Plus Re.Any))
       (Re.Cat (Re.lit " (") (Re.Cat (Re.Group 4 (Re.Plus Re.Any)) (Re.lit ")"))))
    (name ++ " (" ++ sites ++ ")") pos caps (fun _ _ caps' => Some caps')
  = Some (Re.set_group 4 sites (Re.set_group 3 name caps)).
Proof.
  intros Hname Aname Hsites Asites Hopen.
  cbn [Re.run].
  apply greedy_first_success; [exact Hname|exact Aname| |].
  - cbv beta. cbn [Re.run]. rewrite run_lit. cbn [Re.run].
    rewrite add_sub_left, substring_prefix.
    apply greedy_first_success; [exact Hsites|exact Asites| |].
    + cbv beta. rewrite add_sub_left, substring_prefix. reflexivity.
    + intros b1 b2 Hr Hb _. cbv beta.
      destruct b1 as [|x [|y b1]]; [contradiction| |]; simpl in Hr.
      * inversion Hr; subst. reflexivity.
      * inversion Hr.
  - intros b1 b2 Hr Hb _. cbv beta. cbn [Re.run].
    match goal with |- ?lhs = None => destruct lhs as [m|] eqn:E end;
      [|reflexivity].
    exfalso. apply run_lit_prefix in E.
    pose proof (later_opening sites b1 b2 Hr Hb E) as H. congruence.
Qed.

(** X9.  A declaration in ASCII text written as name, a space and the
    site list in parentheses, with an optional count and space in front,
    is parsed into that name and that site list: for a non-empty name and
    site list without line breaks, no opening parenthesis in the site
    list and, when there is no count, no digit at the head of the
    name. *)
Theorem declaration_of_name_and_sites :
  forall name sites : string,
    str_forall is_ascii name = true -> str_forall is_ascii sites = true ->
    name <> EmptyString -> str_forall (Re.accepts Re.Any) name = true ->
    sites <> EmptyString -> str_forall (Re.accepts Re.Any) sites = true ->
    str_has "(" sites = false ->
    (match name with
     | String x _ => Re.accepts Re.digit x = false
     | EmptyString => True
     end ->
     parse_declaration (name ++ " (" ++ sites ++ ")") = Ok (name, sites))
    /\ (forall count : string,
           count <> EmptyString -> str_forall (Re.accepts Re.digit) count = true ->
           parse_declaration (count ++ " " ++ name ++ " (" ++ sites ++ ")")
           = Ok (name, sites)).
Proof.
  intros name sites _ _ Hname Aname Hsites Asites Hopen. split.
  - intro Hhead.
    assert (Re.re_match Regexes.RE_DYN_MODS (name ++ " (" ++ sites ++ ")")
            = Some (Re.set_group 4 sites (Re.set_group 3 name Re.no_captures)))
      as E.
    { unfold Re.re_match, Regexes.RE_DYN_MODS.
      cbn [Re.run Re.lit].
      destruct name as [|x name']; [contradiction|].
      cbn [String.append Re.greedy]. rewrite Hhead.
      change (String x (name' ++ " (" ++ sites ++ ")"))%string
        with (String x name' ++ " (" ++ sites ++ ")")%string.
      exact (declaration_body (String x name') sites 0 Re.no_captures
               Hname Aname Hsites Asites Hopen). }
    unfold parse_declaration. rewrite E. reflexivity.
  - intros count Hcount Acount.
    assert (exists caps,
               Re.re_match Regexes.RE_DYN_MODS
                 (count ++ " " ++ name ++ " (" ++ sites ++ ")")
               = Some (Re.set_group 4 sites (Re.set_group 3 name caps)))
      as [caps E].
    { unfold Re.re_match, Regexes.RE_DYN_MODS.
      eexists. cbn [Re.run Re.lit].
      erewrite (greedy_stops (R := Re.captures));
        [reflexivity|exact Hcount|exact Acount|reflexivity|].
      cbn [String.append]. simpl Re.accepts. cbv iota.
      exact (declaration_body name sites _ _ Hname Aname Hsites Asites Hopen). }
    unfold parse_declaration. rewrite E. reflexivity.
Qed.

Lemma declaration_of_name_and_sites_witness :
  (match "Phospho"%string with
   | String x _ => Re.accepts Re.digit x = false
   | EmptyString => True
   end ->
   parse_declaration ("Phospho" ++ " (" ++ "STY" ++ ")") = Ok ("Phospho", "STY")%string)
  /\ (forall count : string,
         count <> EmptyString -> str_forall (Re.accepts Re.digit) count = true ->
         parse_declaration (count ++ " " ++ "Phospho" ++ " (" ++ "STY" ++ ")")
         = Ok ("Phospho", "STY")%string).
Proof.
  apply (declaration_of_name_and_sites "Phospho"%string "STY"%string);
    (discriminate || reflexivity).
Defined.

Lemma description_needs_prefix (full_prot_desc : string) :
  String.prefix ">sp|" full_prot_desc = false ->
  parse_description full_prot_desc = Raise AttributeError.
Proof.
  intro H. unfold parse_description.
  destruct (Re.re_match Regexes.RE_DESCRIPTION full_prot_desc) as [m|] eqn:E;
    [|reflexivity].
  exfalso. unfold Re.re_match, Regexes.RE_DESCRIPTION in E.
  cbn [Re.run] in E. simpl Nat.eqb in E. cbv iota in E.
  apply run_lit_prefix in E. congruence.
Qed.

Lemma for_each_ok_each {A S : Type} (body : S -> A -> result S) (xs : list A)
    (acc r : S) (x : A) :
  for_each body xs acc = Ok r -> In x xs ->
  exists acc' acc'', body acc' x = Ok acc''.
Proof.
  revert acc. induction xs as [|y xs IH]; intros acc H Hin; [destruct Hin|].
  simpl in H. destruct (body acc y) as [acc1|e] eqn:E; simpl in H; [|discriminate].
  destruct Hin as [->|Hin]; [eauto|exact (IH _ H Hin)].
Qed.

(** X10.  A peptide row whose protein description does not start with
    ">sp|" keeps [_get_peptide_queries] from returning: the pattern for
    the description does not apply, and the call ends in an exception
    whatever the other rows hold. *)
Theorem description_without_prefix_aborts :
  forall (c : cursor) (fixed_mods var_mods : list string) (r : row),
    In r (peptide_rows c) ->
    String.prefix ">sp|" (full_prot_desc r) = false ->
    parse_description (full_prot_desc r) = Raise AttributeError
    /\ exists e, _get_peptide_queries c fixed_mods var_mods = Raise e.
Proof.
  intros c fixed_mods var_mods r Hin Hp.
  pose proof (description_needs_prefix _ Hp) as Hd. split; [exact Hd|].
  destruct (_get_peptide_queries c fixed_mods var_mods) as [out|e] eqn:E; [|eauto].
  exfalso. unfold _get_peptide_queries in E.
  destruct (comprehension parse_declaration fixed_mods) as [fp|]; simpl in E;
    [|discriminate].
  destruct (comprehension parse_declaration var_mods) as [vp|]; simpl in E;
    [|discriminate].
  destruct (for_each (row_step c vp fp) (peptide_rows c) []) as [unsorted|] eqn:F;
    simpl in E; [|discriminate].
  destruct (for_each_ok_each _ _ _ _ _ F Hin) as (acc' & acc'' & Hb).
  unfold row_step in Hb.
  destruct (_get_pep_mods c (pep_id r) (row_pep_seq r) vp fp) as [[pv pf]|];
    simpl in Hb; [|discriminate].
  rewrite Hd in Hb. discriminate.
Qed.

(* ================================================================= *)
(** ** Further properties of the delivered collection *)

Import DeliverySpec.

Section StableSort.

Variable A : Type.
Variable key : A -> Z.

Lemma insert_keeps_order (x : A) (l : list A) (k : Z) :
  filter (fun y => key y =? k) (Collections.insert key x l)
  = if key x =? k
    then x :: filter (fun y => key y =? k) l
    else filter (fun y => key y =? k) l.
Proof.
  induction l as [|y l IH]; simpl.
  - destruct (key x =? k); reflexivity.
  - destruct (Z.leb_spec (key x) (key y)) as [Hle|Hgt]; simpl.
    + destruct (key x =? k); reflexivity.
    + rewrite IH. destruct (Z.eqb_spec (key x) k) as [Hx|Hx].
      * destruct (Z.eqb_spec (key y) k) as [Hy|Hy]; [lia|reflexivity].
      * reflexivity.
Qed.

(** [sorted] is stable: the elements with one key stay in the order of
    the input. *)
Lemma sorted_stable (l : list A) (k : Z) :
  filter (fun y => key y =? k) (Collections.sorted key l)
  = filter (fun y => key y =? k) l.
Proof.
  induction l as [|x l IH]; simpl; [reflexivity|].
  rewrite insert_keeps_order, IH. reflexivity.
Qed.

End StableSort.

Lemma row_loop_built (c : cursor) (var_mods fixed_mods : list pot_mod)
    (rows : list row) (acc out : list PeptideQuery) :
  for_each (row_step c var_mods fixed_mods) rows acc = Ok out ->
  exists news,
    out = acc ++ news /\ Forall2 (built_from c var_mods fixed_mods) rows news.
Proof.
  revert acc. induction rows as [|r rows IH]; intros acc H; simpl in H.
  - inversion H; subst. exists []. rewrite app_nil_r. split; constructor.
  - unfold row_step in H at 1.
    destruct (_get_pep_mods c (pep_id r) (row_pep_seq r) var_mods fixed_mods)
      as [[pv pf]|e] eqn:G; simpl in H; [|discriminate].
    destruct (parse_description (full_prot_desc r)) as [[accession prot_desc]|e]
      eqn:D; simpl in H; [|discriminate].
    destruct (get_pep_mods_checked _ _ _ _ _ _ _ G) as [Cv Cf].
    rewrite (new_PeptideQuery_ok _ _ _ _ _ _ _ _ _ _ Cv Cf) in H. simpl in H.
    destruct (IH _ H) as (news & -> & Hall).
    eexists (_ :: news). rewrite <- app_assoc. split; [reflexivity|].
    constructor; [|exact Hall].
    unfold built_from. simpl. repeat split; assumption.
Qed.

(** X11.  When [_get_peptide_queries] returns, its records are those
    built from the peptide rows, one per row: each holds the sequence,
    scan, file name, m/z and charge of its row, the accession and
    description parsed from the row's protein description, the resolved
    modifications of the row's peptide and the number of combinations of
    its variable modifications.  They are delivered reordered by scan
    only, records of one scan staying in the order of their rows. *)
Theorem records_follow_rows :
  forall (c : cursor) (fixed_mods var_mods : list string) (out : list PeptideQuery),
    _get_peptide_queries c fixed_mods var_mods = Ok out ->
    exists (fixed_pool var_pool : list pot_mod) (in_row_order : list PeptideQuery),
      comprehension parse_declaration fixed_mods = Ok fixed_pool
      /\ comprehension parse_declaration var_mods = Ok var_pool
      /\ Forall2 (built_from c var_pool fixed_pool) (peptide_rows c) in_row_order
      /\ Permutation in_row_order out
      /\ forall k : Z,
           filter (fun q => scan q =? k) out
           = filter (fun q => scan q =? k) in_row_order.
Proof.
  intros c fixed_mods var_mods out H. unfold _get_peptide_queries in H.
  destruct (comprehension parse_declaration fixed_mods) as [fp|e];
    simpl in H; [|discriminate].
  destruct (comprehension parse_declaration var_mods) as [vp|e];
    simpl in H; [|discriminate].
  destruct (for_each (row_step c vp fp) (peptide_rows c) []) as [unsorted|e] eqn:E;
    simpl in H; [|discriminate].
  inversion H; subst out.
  destruct (row_loop_built _ _ _ _ _ _ E) as (news & Hout & Hall).
  simpl in Hout. subst news.
  exists fp, vp, unsorted. repeat split; try assumption.
  - apply sorted_permutation.
  - intro k. apply sorted_stable.
Qed.

Lemma records_follow_rows_witness :
  exists out,
    _get_peptide_queries Samples.isoforms [] ["Phospho (ST)"%string] = Ok out
    /\ exists (fixed_pool var_pool : list pot_mod) (in_row_order : list PeptideQuery),
         comprehension parse_declaration [] = Ok fixed_pool
         /\ comprehension parse_declaration ["Phospho (ST)"%string] = Ok var_pool
         /\ Forall2 (built_from Samples.isoforms var_pool fixed_pool)
              (peptide_rows Samples.isoforms) in_row_order
         /\ Permutation in_row_order out
         /\ forall k : Z,
              filter (fun q => scan q =? k) out
              = filter (fun q => scan q =? k) in_row_order.
Proof.
  eexists. split; [vm_compute; reflexivity|].
  apply (records_follow_rows Samples.isoforms [] ["Phospho (ST)"%string]).
  vm_compute. reflexivity.
Defined.

Lemma description_without_prefix_aborts_witness :
  parse_description ">tr|Q9XYZ1|Q9XYZ1_HUMAN Uncharacterized protein OS=Homo sapiens"
  = Raise AttributeError
  /\ exists e,
       _get_peptide_queries Samples.unreviewed [] ["Oxidation (M)"%string] = Raise e.
Proof.
  apply (description_without_prefix_aborts Samples.unreviewed []
           ["Oxidation (M)"%string]
           (mkRow 1 ">tr|Q9XYZ1|Q9XYZ1_HUMAN Uncharacterized protein OS=Homo sapiens"
              "MAK" 1200 650.5%float 2 "run.raw")).
  - simpl. left. reflexivity.
  - reflexivity.
Defined.

Lemma dynamic_not_static (p : string * string) :
  is_dynamic p = true -> is_static p = false.
Proof.
  unfold is_dynamic, is_static. destruct p as [name val]. simpl fst.
  destruct name as [|a name]; [discriminate|].
  cbn [String.prefix].
  destruct (ascii_dec "D" a) as [<-|]; [|discriminate]. intros _.
  destruct (ascii_dec "S" "D"); [discriminate|reflexivity].
Qed.

Lemma fixed_var_from (ps : list (string * string)) (fixed_mods var_mods : list string) :
  fold_left
    (fun '(fixed_mods, var_mods) '(name, val) =>
       if String.prefix "StaticMod_" name then (fixed_mods ++ [val], var_mods)
       else if String.prefix "DynMod_" name then (fixed_mods, var_mods ++ [val])
       else (fixed_mods, var_mods))
    ps (fixed_mods, var_mods)
  = (fixed_mods ++ map snd (filter is_static ps),
     var_mods ++ map snd (filter is_dynamic ps)).
Proof.
  revert fixed_mods var_mods.
  induction ps as [|[name val] ps IH]; intros fixed_mods var_mods; simpl.
  - now rewrite !app_nil_r.
  - pose proof (dynamic_not_static (name, val)) as Hx.
    unfold is_static, is_dynamic in *. simpl fst in *.
    destruct (String.prefix "StaticMod_" name) eqn:Es.
    + destruct (String.prefix "DynMod_" name) eqn:Ed;
        [specialize (Hx eq_refl); discriminate|].
      rewrite IH. simpl. now rewrite <- app_assoc.
    + destruct (String.prefix "DynMod_" name) eqn:Ed; rewrite IH; simpl;
        [now rewrite <- app_assoc|reflexivity].
Qed.

(** X12.  [_get_fixed_var_mods] returns the values of the parameters
    whose name starts with "StaticMod_" as fixed and of those whose name
    starts with "DynMod_" as variable declarations, each in the order of
    the rows, and no value in both; [read_discoverer_msf] hands those two
    lists to [_get_peptide_queries] and returns them with its records, so
    that parameters with another name play no part in the outcome. *)
Theorem fixed_and_variable_declarations :
  forall f : msf,
    let fixed_mods := map snd (filter is_static (parameters f)) in
    let var_mods := map snd (filter is_dynamic (parameters f)) in
    _get_fixed_var_mods (parameters f) = (fixed_mods, var_mods)
    /\ (forall p, In p (parameters f) -> is_static p && is_dynamic p = false)
    /\ read_discoverer_msf f
       = (out <- _get_peptide_queries (peptides f) fixed_mods var_mods ;;
          Ok (fixed_mods, var_mods, out))
    /\ (forall g : msf,
           peptides g = peptides f ->
           filter (fun p => is_static p || is_dynamic p) (parameters g)
           = filter (fun p => is_static p || is_dynamic p) (parameters f) ->
           read_discoverer_msf g = read_discoverer_msf f).
Proof.
  intro f.
  assert (forall ps, _get_fixed_var_mods ps
                     = (map snd (filter is_static ps), map snd (filter is_dynamic ps)))
    as Hfv by (intro ps; unfold _get_fixed_var_mods; now rewrite fixed_var_from).
  cbv zeta. split; [apply Hfv|]. split; [|split].
  - intros p _. destruct (is_dynamic p) eqn:E.
    + now rewrite (dynamic_not_static p E).
    + apply andb_false_r.
  - unfold read_discoverer_msf. now rewrite Hfv.
  - intros g Hp Hq. unfold read_discoverer_msf. rewrite !Hfv, Hp.
    assert (forall ps,
               filter is_static ps
               = filter is_static (filter (fun p => is_static p || is_dynamic p) ps)
               /\ filter is_dynamic ps
                  = filter is_dynamic (filter (fun p => is_static p || is_dynamic p) ps))
      as Hsub.
    { induction ps as [|p ps [IH1 IH2]]; simpl; [split; reflexivity|].
      destruct (is_static p) eqn:Es, (is_dynamic p) eqn:Ed; simpl;
        rewrite ?Es, ?Ed; split; congruence. }
    destruct (Hsub (parameters g)) as [-> ->].
    destruct (Hsub (parameters f)) as [-> ->].
    now rewrite Hq.
Qed.

Lemma fixed_and_variable_declarations_witness :
  read_discoverer_msf
    (mkMsf [("StaticMod_1", "Carbamidomethyl (C)"); ("MaxMissedCleavages", "2");
            ("DynMod_1", "Oxidation (M)"); ("DynMod_2", "Phospho (STY)");
            ("StaticMod_2", "TMT6plex (N-term)")]%string Samples.labelled)
  = read_discoverer_msf
      (mkMsf [("StaticMod_1", "Carbamidomethyl (C)");
              ("DynMod_1", "Oxidation (M)"); ("DynMod_2", "Phospho (STY)");
              ("Comment", "not a declaration");
              ("StaticMod_2", "TMT6plex (N-term)")]%string Samples.labelled).
Proof.
  apply (proj2 (proj2 (proj2 (fixed_and_variable_declarations
           (mkMsf [("StaticMod_1", "Carbamidomethyl (C)");
              ("DynMod_1", "Oxidation (M)"); ("DynMod_2", "Phospho (STY)");
              ("Comment", "not a declaration");
              ("StaticMod_2", "TMT6plex (N-term)")]%string Samples.labelled))))).
  - reflexivity.
  - reflexivity.
Defined.

(* ================================================================= *)
(** ** Properties of the scans requested for conversion ([get_scan_data]) *)

Lemma sorted_nodup_strict (l : list Z) :
  NoDup l -> Sorted Z.le l -> StronglySorted Z.lt l.
Proof.
  intros Hnd Hs. apply Sorted_StronglySorted in Hs; [|intros x y z; apply Z.le_trans].
  induction Hs as [|x l Hs IH Hall]; [constructor|].
  inversion Hnd as [|? ? Hx Hl]; subst. constructor; [exact (IH Hl)|].
  rewrite Forall_forall in *. intros y Hy.
  specialize (Hall y Hy). assert (x <> y) by (intros ->; contradiction). lia.
Qed.

Lemma strict_same_elements (l1 l2 : list Z) :
  StronglySorted Z.lt l1 -> StronglySorted Z.lt l2 ->
  (forall x, In x l1 <-> In x l2) -> l1 = l2.
Proof.
  intro H1. revert l2. induction H1 as [|x l1 Hs1 IH Hall1]; intros l2 H2 Hin.
  - destruct l2 as [|y l2]; [reflexivity|].
    exfalso. apply (proj2 (Hin y)). now left.
  - destruct H2 as [|y l2 Hs2 Hall2].
    + exfalso. apply (proj1 (Hin x)). now left.
    + rewrite Forall_forall in Hall1, Hall2.
      assert (x = y) as ->.
      { destruct (proj1 (Hin x) (or_introl eq_refl)) as [E|Hx]; [now symmetry|].
        destruct (proj2 (Hin y) (or_introl eq_refl)) as [E|Hy]; [assumption|].
        specialize (Hall1 y Hy). specialize (Hall2 x Hx). lia. }
      f_equal. apply IH; [exact Hs2|].
      intro z. split; intro Hz.
      * destruct (proj1 (Hin z) (or_intror Hz)) as [E|Hz']; [|exact Hz'].
        specialize (Hall1 z Hz). lia.
      * destruct (proj2 (Hin z) (or_intror Hz)) as [E|Hz']; [|exact Hz'].
        specialize (Hall2 z Hz). lia.
Qed.

Lemma sorted_of_enumeration (u xs : list Z) :
  enumerates u xs ->
  StronglySorted Z.lt (Collections.sorted (fun scan => scan) u)
  /\ forall x, In x (Collections.sorted (fun scan => scan) u) <-> In x xs.
Proof.
  intros [Hnd Hin].
  pose proof (sorted_permutation Z (fun scan => scan) u) as Hp. split.
  - apply sorted_nodup_strict.
    + exact (Permutation_NoDup Hp Hnd).
    + apply (sorted_sorted Z (fun scan => scan)).
  - intro x. rewrite <- Hin. split; intro H.
    + exact (Permutation_in x (Permutation_sym Hp) H).
    + exact (Permutation_in x Hp H).
Qed.

(** X13.  The scans asked of the converter for the MS2 data are the scan
    numbers of the peptide records, each once, in strictly ascending
    order, whichever order the set of scan numbers is enumerated in;
    records that share a scan lead to one conversion of it. *)
Theorem ms2_scans_distinct_ascending :
  forall pep_queries : list PeptideQuery,
    StronglySorted Z.lt (Scans.ms2_scans pep_queries)
    /\ (forall x, In x (Scans.ms2_scans pep_queries)
                  <-> exists q, In q pep_queries /\ scan q = x)
    /\ (forall u : list Z,
           enumerates u (map scan pep_queries) ->
           Collections.sorted (fun scan => scan) u = Scans.ms2_scans pep_queries).
Proof.
  intro pep_queries.
  assert (enumerates (nodup Z.eq_dec (map scan pep_queries)) (map scan pep_queries))
    as He by (split; [apply NoDup_nodup|intro x; apply nodup_In]).
  destruct (sorted_of_enumeration _ _ He) as [Hs Hin].
  unfold Scans.ms2_scans. split; [exact Hs|]. split.
  - intro x. rewrite Hin, in_map_iff. split; intros (q & H1 & H2); eauto.
  - intros u Hu. destruct (sorted_of_enumeration _ _ Hu) as [Hs' Hin'].
    apply strict_same_elements; try assumption.
    intro x. now rewrite Hin, Hin'.
Qed.

Lemma ms2_scans_distinct_ascending_witness :
  Collections.sorted (fun scan => scan) [1300; 1200]
  = Scans.ms2_scans
      [mkPeptideQuery "A" "a" 1 "run.raw" 650.5%float 2 "ASTK" [] [] 1300 1;
       mkPeptideQuery "A" "a" 1 "run.raw" 650.5%float 2 "MSTK" [] [] 1200 1;
       mkPeptideQuery "B" "b" 1 "run.raw" 650.5%float 2 "ASTK" [] [] 1300 1].
Proof.
  apply (proj2 (proj2 (ms2_scans_distinct_ascending
           [mkPeptideQuery "A" "a" 1 "run.raw" 650.5%float 2 "ASTK" [] [] 1300 1;
            mkPeptideQuery "A" "a" 1 "run.raw" 650.5%float 2 "MSTK" [] [] 1200 1;
            mkPeptideQuery "B" "b" 1 "run.raw" 650.5%float 2 "ASTK" [] [] 1300 1]))
           [1300; 1200]).
  split.
  - repeat constructor; simpl; intuition lia.
  - intro x. simpl. intuition lia.
Defined.

(* ================================================================= *)
(** ** Entries, specifications and pools that do not overlap *)

Lemma find_mod_In (abbrev letter : string) (pool : list pot_mod) (m : pot_mod) :
  _find_mod abbrev letter pool = Some m ->
  In m pool /\ fst m = abbrev /\ str_in letter (snd m) = true.
Proof.
  induction pool as [|p pool IH]; simpl; [discriminate|].
  destruct (String.eqb (fst p) abbrev && str_in letter (snd p)) eqn:E.
  - intro H. inversion H; subst. apply andb_true_iff in E. destruct E as [E1 E2].
    apply String.eqb_eq in E1. auto.
  - intro H. destruct (IH H) as (H1 & H2 & H3). auto.
Qed.

Lemma var_bound_In (var_mods : list pot_mod) (hs : list hit) (m : pot_mod) :
  In m (var_bound var_mods hs) ->
  In m var_mods
  /\ exists h, In h hs /\ fst m = fst h /\ str_in (snd h) (snd m) = true.
Proof.
  unfold var_bound. rewrite in_flat_map. intros (h & Hh & Hm).
  destruct (_find_mod (fst h) (snd h) var_mods) as [m'|] eqn:E; [|destruct Hm].
  destruct Hm as [<-|[]]. destruct (find_mod_In _ _ _ _ E) as (H1 & H2 & H3).
  split; [exact H1|]. exists h. auto.
Qed.

Lemma fixed_bound_In (var_mods fixed_mods : list pot_mod) (hs : list hit)
    (m : pot_mod) :
  In m (fixed_bound var_mods fixed_mods hs) ->
  In m fixed_mods
  /\ exists h, In h hs /\ fst m = fst h /\ str_in (snd h) (snd m) = true
               /\ _find_mod (fst h) (snd h) var_mods = None.
Proof.
  unfold fixed_bound. rewrite in_flat_map. intros (h & Hh & Hm).
  apply filter_In in Hh. destruct Hh as [Hh Hv].
  destruct (_find_mod (fst h) (snd h) fixed_mods) as [m'|] eqn:E; [|destruct Hm].
  destruct Hm as [<-|[]]. destruct (find_mod_In _ _ _ _ E) as (H1 & H2 & H3).
  split; [exact H1|]. exists h. repeat split; auto.
  unfold matches in Hv. destruct (_find_mod (fst h) (snd h) var_mods);
    [discriminate|reflexivity].
Qed.

Lemma count_mods_In (mod_list : list pot_mod) (o : mod_entry) :
  In o (_count_mods mod_list) ->
  exists letters, snd o = _parse_letters letters /\ In (snd (fst o), letters) mod_list.
Proof.
  destruct (Counter_spec pot_mod pot_mod_eqb pot_mod_dec pot_mod_eqb_eq mod_list)
    as (_ & Hin & _).
  unfold _count_mods. intro Ho. apply in_map_iff in Ho.
  destruct Ho as ([[abbrev letters] n] & <- & Hc).
  destruct (Hin _ _ Hc) as [_ Hl]. exists letters. auto.
Qed.

(** X14.  Every entry returned for a peptide stands for a specification
    of its own pool that one of the peptide's hits matches: a variable
    entry carries the name and the whole site list of a variable
    specification, a fixed entry those of a fixed specification whose hit
    the variable pool does not match; the entry holds the declared sites,
    not the residue that was hit. *)
Theorem entries_stand_for_specifications :
  forall (c : cursor) (pep_id : Z) (pep_seq : string)
         (var_mods fixed_mods : list pot_mod)
         (pep_var_mods pep_fixed_mods : list mod_entry),
    _get_pep_mods c pep_id pep_seq var_mods fixed_mods
    = Ok (pep_var_mods, pep_fixed_mods) ->
    let hs := hits pep_seq (aa_mods_of c pep_id) (term_mods_of c pep_id) in
    Forall
      (fun o : mod_entry =>
         exists spec h,
           In spec var_mods /\ In h hs
           /\ fst spec = snd (fst o) /\ snd o = _parse_letters (snd spec)
           /\ fst h = fst spec /\ str_in (snd h) (snd spec) = true)
      pep_var_mods
    /\ Forall
         (fun o : mod_entry =>
            exists spec h,
              In spec fixed_mods /\ In h hs
              /\ fst spec = snd (fst o) /\ snd o = _parse_letters (snd spec)
              /\ fst h = fst spec /\ str_in (snd h) (snd spec) = true
              /\ _find_mod (fst h) (snd h) var_mods = None)
         pep_fixed_mods.
Proof.
  intros c pep_id pep_seq var_mods fixed_mods pv pf H hs.
  unfold _get_pep_mods in H.
  destruct (resolve_hits pep_seq var_mods fixed_mods (aa_mods_of c pep_id)
              (term_mods_of c pep_id)) as [[vs fs]|e] eqn:E; simpl in H;
    [|discriminate].
  inversion H; subst pv pf; clear H.
  destruct (resolve_hits_ok _ _ _ _ _ _ E) as [E1 _].
  destruct (resolve_all_ok _ _ _ _ _ _ _ E1) as (Hv & Hf & _).
  simpl in Hv, Hf. fold hs in Hv, Hf. subst vs fs.
  split; apply Forall_forall; intros o Ho;
    destruct (count_mods_In _ _ Ho) as (letters & Hl & Hin).
  - destruct (var_bound_In _ _ _ Hin) as (Hp & h & Hh & Ha & Hs).
    exists (snd (fst o), letters), h. simpl in *. repeat split; auto.
  - destruct (fixed_bound_In _ _ _ _ Hin) as (Hp & h & Hh & Ha & Hs & Hn).
    exists (snd (fst o), letters), h. simpl in *. repeat split; auto.
Qed.

Lemma entries_stand_for_specifications_witness :
  Forall
    (fun o : mod_entry =>
       exists spec h,
         In spec [("Oxidation", "M"); ("Phospho", "STY")]%string
         /\ In h (hits "MSMK" (aa_mods_of Samples.labelled 1)
                    (term_mods_of Samples.labelled 1))
         /\ fst spec = snd (fst o) /\ snd o = _parse_letters (snd spec)
         /\ fst h = fst spec /\ str_in (snd h) (snd spec) = true)
    [(2, "Oxidation"%string, PyTuple ["M"%string]);
     (1, "Phospho"%string, PyTuple ["S"; "T"; "Y"]%string)]
  /\ Forall
       (fun o : mod_entry =>
          exists spec h,
            In spec [("TMT6plex", "N-term")]%string
            /\ In h (hits "MSMK" (aa_mods_of Samples.labelled 1)
                       (term_mods_of Samples.labelled 1))
            /\ fst spec = snd (fst o) /\ snd o = _parse_letters (snd spec)
            /\ fst h = fst spec /\ str_in (snd h) (snd spec) = true
            /\ _find_mod (fst h) (snd h) [("Oxidation", "M"); ("Phospho", "STY")]%string
               = None)
       [(1, "TMT6plex"%string, PyTuple ["N-term"%string])].
Proof.
  apply (entries_stand_for_specifications Samples.labelled 1 "MSMK"%string
           [("Oxidation", "M"); ("Phospho", "STY")]%string
           [("TMT6plex", "N-term")]%string).
  reflexivity.
Defined.

Lemma no_competitor (mods : list mod_entry) (mod_ : string) (letters : pyseq)
    (init : Z) :
  (forall o, In o mods -> seq_eq (snd o) letters = true -> snd (fst o) = mod_) ->
  subtract_competitors mods mod_ letters init = init.
Proof.
  unfold subtract_competitors. revert init.
  induction mods as [|[[o_count o_mod] o_letters] mods IH]; intros init H; simpl;
    [reflexivity|].
  destruct (seq_eq o_letters letters) eqn:E; simpl.
  - pose proof (H (o_count, o_mod, o_letters) (or_introl eq_refl) E) as Hm.
    simpl in Hm. rewrite Hm, String.eqb_refl. simpl. apply IH.
    intros o Ho. apply H. now right.
  - apply IH. intros o Ho. apply H. now right.
Qed.

(** X15.  When no two variable entries with different abbreviations have
    the same residue tuple, nothing is subtracted and [num_comb] is the
    product, over the entries, of [nCr] of the occurrences of the entry's
    residues in the sequence and the entry's count. *)
Theorem disjoint_pools_multiply :
  forall (pep_seq : string) (mods : list mod_entry),
    _check_mods mods = true ->
    (forall o o', In o mods -> In o' mods ->
                  seq_eq (snd o') (snd o) = true -> snd (fst o') = snd (fst o)) ->
    _calc_num_comb pep_seq mods
    = fold_right Z.mul 1
        (map (fun o : mod_entry =>
                Utils.nCr (site_count pep_seq (snd o)) (count_of o))
           mods).
Proof.
  intros pep_seq mods Hc Hd. unfold _calc_num_comb.
  rewrite calc_loop_product, Z.mul_1_l. f_equal.
  apply map_ext_in. intros [[count mod_] letters] Hin. simpl.
  unfold potential_mod_sites.
  rewrite (effective_letters_tuple mod_ letters (check_mods_In _ _ _ _ Hc Hin)).
  rewrite no_competitor; [reflexivity|].
  intros o Ho Heq. exact (Hd (count, mod_, letters) o Hin Ho Heq).
Qed.

Lemma disjoint_pools_multiply_witness :
  _calc_num_comb "MMK"
    [(1, "Oxidation"%string, PyTuple ["M"%string]);
     (1, "Acetyl"%string, PyTuple ["K"%string])]
  = fold_right Z.mul 1
      (map (fun o : mod_entry =>
              Utils.nCr (site_count "MMK" (snd o)) (count_of o))
         [(1, "Oxidation"%string, PyTuple ["M"%string]);
          (1, "Acetyl"%string, PyTuple ["K"%string])]).
Proof.
  apply (disjoint_pools_multiply "MMK"%string
           [(1, "Oxidation"%string, PyTuple ["M"%string]);
            (1, "Acetyl"%string, PyTuple ["K"%string])]).
  - reflexivity.
  - intros o o' Ho Ho' Heq. simpl in Ho, Ho'.
    destruct Ho as [<-|[<-|[]]], Ho' as [<-|[<-|[]]]; simpl in *;
      (reflexivity || discriminate).
Defined.

(* ================================================================= *)
(** ** The declarations that [_get_peptide_queries] takes *)

Import DeclarationSpec.

Lemma run_cat {R : Type} (r1 r2 : Re.re) (s : string) (pos : nat)
    (caps : Re.captures) (k : string -> nat -> Re.captures -> option R) :
  Re.run R (Re.Cat r1 r2) s pos caps k
  = Re.run R r1 s pos caps (fun s' pos' caps' => Re.run R r2 s' pos' caps' k).
Proof. reflexivity. Qed.

Lemma run_group_plus {R : Type} (n : nat) (c : Re.cls) (s : string) (pos : nat)
    (caps : Re.captures) (k : string -> nat -> Re.captures -> option R) :
  Re.run R (Re.Group n (Re.Plus c)) s pos caps k
  = Re.greedy R c
      (fun s' pos' => k s' pos' (Re.set_group n (substring 0 (pos' - pos) s) caps))
      s pos.
Proof. reflexivity. Qed.

Lemma run_lit_inv {R : Type} (p s : string) (pos : nat) (caps : Re.captures)
    (k : string -> nat -> Re.captures -> option R) (m : R) :
  Re.run R (Re.lit p) s pos caps k = Some m ->
  exists s', s = (p ++ s')%string /\ k s' (pos + String.length p)%nat caps = Some m.
Proof.
  revert s pos. induction p as [|c p IH]; intros s pos H; simpl in H.
  - exists s. simpl. now rewrite Nat.add_0_r.
  - destruct s as [|a s]; [discriminate|].
    destruct (Ascii.eqb a c) eqn:E; [|discriminate].
    apply Ascii.eqb_eq in E. subst a.
    destruct (IH _ _ H) as (s' & -> & Hk). exists s'. split; [reflexivity|].
    simpl. now rewrite Nat.add_succ_r.
Qed.

(** What [c+] has taken when the match went through. *)
Lemma greedy_sound {R : Type} (c : Re.cls) (k : string -> nat -> option R)
    (s : string) (m : R) :
  forall pos : nat,
    Re.greedy R c k s pos = Some m ->
    exists a rest,
      s = (a ++ rest)%string /\ a <> EmptyString
      /\ str_forall (Re.accepts c) a = true
      /\ k rest (pos + String.length a)%nat = Some m.
Proof.
  induction s as [|x s IH]; intros pos H; simpl in H; [discriminate|].
  destruct (Re.accepts c x) eqn:A; [|discriminate].
  destruct (Re.greedy R c k s (S pos)) as [m'|] eqn:E.
  - inversion H; subst m'.
    destruct (IH _ E) as (a & rest & -> & Ha & Hall & Hk).
    exists (String x a), rest. simpl. rewrite A, Hall, Nat.add_succ_r.
    repeat split; [discriminate|exact Hk].
  - exists (String x EmptyString), s. simpl. rewrite A, Nat.add_1_r.
    repeat split; [discriminate|exact H].
Qed.

(** [c+] goes through as soon as it does behind one run. *)
Lemma greedy_complete {R : Type} (c : Re.cls) (k : string -> nat -> option R)
    (a rest : string) :
  forall pos : nat,
    a <> EmptyString ->
    str_forall (Re.accepts c) a = true ->
    (exists m0, k rest (pos + String.length a)%nat = Some m0) ->
    exists m, Re.greedy R c k (a ++ rest) pos = Some m.
Proof.
  induction a as [|x a IH]; intros pos Hne Hall Hk; [contradiction|].
  simpl in Hall. apply andb_true_iff in Hall. destruct Hall as [A Hall].
  simpl. rewrite A. simpl String.length in Hk. rewrite Nat.add_succ_r in Hk.
  destruct (Re.greedy R c k (a ++ rest) (S pos)) as [m'|] eqn:E; [eauto|].
  destruct a as [|y a'].
  - simpl in *. now rewrite Nat.add_0_r in Hk.
  - exfalso. destruct (IH (S pos)) as [m E']; try assumption; [discriminate|].
    congruence.
Qed.

(** The name, the site list and the parentheses, when the match went
    through. *)
Lemma declaration_body_sound (s : string) (pos : nat) (caps m : Re.captures) :
  Re.run Re.captures
    (Re.Cat (Re.Group 3 (Re.Plus Re.Any))
       (Re.Cat (Re.lit " (") (Re.Cat (Re.Group 4 (Re.Plus Re.Any)) (Re.lit ")"))))
    s pos caps (fun _ _ caps' => Some caps')
  = Some m ->
  exists name sites behind,
    s = (name ++ " (" ++ sites ++ ")" ++ behind)%string
    /\ name <> EmptyString /\ sites <> EmptyString
    /\ str_forall on_line name = true /\ str_forall on_line sites = true
    /\ m = Re.set_group 4 sites (Re.set_group 3 name caps).
Proof.
  rewrite run_cat, run_group_plus. intro H.
  apply greedy_sound in H.
  destruct H as (name & rest & -> & Hname & Aname & H).
  rewrite run_cat in H. apply run_lit_inv in H.
  destruct H as (r2 & -> & H).
  rewrite run_cat, run_group_plus in H. apply greedy_sound in H.
  destruct H as (sites & r3 & -> & Hsites & Asites & H).
  apply run_lit_inv in H. destruct H as (behind & -> & H).
  rewrite !add_sub_left, !substring_prefix in H. inversion H.
  exists name, sites, behind. repeat split; assumption.
Qed.

Lemma declaration_body_complete (name sites behind : string) (pos : nat)
    (caps : Re.captures) :
  name <> EmptyString -> str_forall on_line name = true ->
  sites <> EmptyString -> str_forall on_line sites = true ->
  exists m,
    Re.run Re.captures
      (Re.Cat (Re.Group 3 (Re.Plus Re.Any))
         (Re.Cat (Re.lit " (") (Re.Cat (Re.Group 4 (Re.Plus Re.Any)) (Re.lit ")"))))
      (name ++ " (" ++ sites ++ ")" ++ behind) pos caps (fun _ _ caps' => Some caps')
    = Some m.
Proof.
  intros Hname Aname Hsites Asites.
  rewrite run_cat, run_group_plus.
  apply greedy_complete; [exact Hname|exact Aname|].
  rewrite run_cat, run_lit, run_cat, run_group_plus.
  apply greedy_complete; [exact Hsites|exact Asites|].
  rewrite run_lit. eauto.
Qed.

Lemma str_forall_app (p : ascii -> bool) (a b : string) :
  str_forall p (a ++ b) = str_forall p a && str_forall p b.
Proof.
  induction a as [|x a IH]; simpl; [reflexivity|].
  now rewrite IH, andb_assoc.
Qed.

Lemma str_app_assoc (a b c : string) :
  ((a ++ b) ++ c)%string = (a ++ b ++ c)%string.
Proof. induction a as [|x a IH]; simpl; [reflexivity|now rewrite IH]. Qed.

Lemma digit_on_line (count : string) :
  str_forall (Re.accepts Re.digit) count = true -> str_forall on_line count = true.
Proof.
  induction count as [|x count IH]; simpl; [reflexivity|].
  intro H. apply andb_true_iff in H. destruct H as [Hx H].
  rewrite (IH H), andb_true_r. unfold on_line.
  destruct (Ascii.eqb x Re.newline) eqn:E; [|reflexivity].
  apply Ascii.eqb_eq in E. subst x. discriminate.
Qed.

(** A match of [RE_DYN_MODS] reads the entry as its groups 3 and 4. *)
Lemma match_sound (i : string) (m : Re.captures) :
  Re.re_match Regexes.RE_DYN_MODS i = Some m ->
  read_as i (Re.group m 3, Re.group m 4).
Proof.
  unfold Re.re_match, Regexes.RE_DYN_MODS. rewrite run_cat.
  cbn [Re.run].
  match goal with
  | |- match ?g with _ => _ end = _ -> _ => destruct g as [m'|] eqn:E
  end.
  - intro H. inversion H; subst m'. clear H.
    apply greedy_sound in E.
    destruct E as (count & rest & -> & Hcount & Acount & E).
    destruct rest as [|a rest]; [discriminate|].
    destruct (Re.accepts (Re.Chr " ") a) eqn:A; [|discriminate].
    simpl in A. apply Ascii.eqb_eq in A. subst a.
    apply declaration_body_sound in E.
    destruct E as (name & sites & behind & -> & Hname & Hsites & Aname & Asites & ->).
    exists (count ++ " ")%string, behind. unfold Re.group, Re.set_group. simpl.
    rewrite str_app_assoc. simpl.
    repeat split; try assumption.
    right. exists count. repeat split; assumption.
  - intro H. apply declaration_body_sound in H.
    destruct H as (name & sites & behind & -> & Hname & Hsites & Aname & Asites & ->).
    exists EmptyString, behind. unfold Re.group, Re.set_group. simpl.
    repeat split; try assumption. now left.
Qed.

Lemma name_part_eq (s : string) :
  name_part s
  = opening s
    || match s with
       | EmptyString => false
       | String x s' => on_line x && name_part s'
       end.
Proof. destruct s; reflexivity. Qed.

Lemma closing_intro (t behind : string) :
  str_forall on_line t = true -> closing (t ++ ")" ++ behind) = true.
Proof.
  induction t as [|x t IH]; intro H; [reflexivity|].
  simpl in H. apply andb_true_iff in H. destruct H as [Hx H].
  specialize (IH H). cbn [append closing] in *. rewrite Hx, IH.
  now destruct (Ascii.eqb x ")").
Qed.

Lemma closing_elim (s : string) :
  closing s = true ->
  exists t behind, s = (t ++ ")" ++ behind)%string /\ str_forall on_line t = true.
Proof.
  induction s as [|x s IH]; intro H; [discriminate|].
  cbn [closing] in H. destruct (Ascii.eqb x ")") eqn:E.
  - apply Ascii.eqb_eq in E. subst x. exists EmptyString, s. now split.
  - apply andb_true_iff in H. destruct H as [Hx H].
    destruct (IH H) as (t & behind & -> & Ht).
    exists (String x t), behind. simpl. now rewrite Hx, Ht.
Qed.

Lemma opening_intro (sites behind : string) :
  sites <> EmptyString -> str_forall on_line sites = true ->
  opening (" (" ++ sites ++ ")" ++ behind) = true.
Proof.
  intros Hne H. destruct sites as [|x t]; [contradiction|].
  simpl in H. apply andb_true_iff in H. destruct H as [Hx H].
  pose proof (closing_intro t behind H) as C.
  cbn [append opening] in *. rewrite Hx, C. reflexivity.
Qed.

Lemma opening_elim (s : string) :
  opening s = true ->
  exists sites behind,
    s = (" (" ++ sites ++ ")" ++ behind)%string
    /\ sites <> EmptyString /\ str_forall on_line sites = true.
Proof.
  destruct s as [|a [|b [|x s]]]; try discriminate. cbn [opening]. intro H.
  apply andb_true_iff in H. destruct H as [H Hc].
  apply andb_true_iff in H. destruct H as [H Hx].
  apply andb_true_iff in H. destruct H as [Ha Hb].
  apply Ascii.eqb_eq in Ha, Hb. subst a b.
  destruct (closing_elim _ Hc) as (t & behind & -> & Ht).
  exists (String x t), behind. simpl. rewrite Hx, Ht.
  repeat split. discriminate.
Qed.

Lemma name_part_intro (name sites behind : string) :
  str_forall on_line name = true ->
  sites <> EmptyString -> str_forall on_line sites = true ->
  name_part (name ++ " (" ++ sites ++ ")" ++ behind) = true.
Proof.
  intros Hname Hne Hsites. induction name as [|x name IH].
  - pose proof (opening_intro sites behind Hne Hsites) as O.
    rewrite name_part_eq. cbn [append] in *. now rewrite O.
  - simpl in Hname. apply andb_true_iff in Hname. destruct Hname as [Hx Hname].
    specialize (IH Hname). rewrite name_part_eq. cbn [append] in *.
    rewrite Hx, IH. apply orb_true_r.
Qed.

Lemma name_part_elim (s : string) :
  name_part s = true ->
  exists name sites behind,
    s = (name ++ " (" ++ sites ++ ")" ++ behind)%string
    /\ str_forall on_line name = true
    /\ sites <> EmptyString /\ str_forall on_line sites = true.
Proof.
  induction s as [|x s IH]; rewrite name_part_eq; intro H.
  - rewrite orb_false_r in H. discriminate.
  - apply orb_true_iff in H. destruct H as [H|H].
    + destruct (opening_elim _ H) as (sites & behind & E & Hne & Hs).
      exists EmptyString, sites, behind. now repeat split.
    + apply andb_true_iff in H. destruct H as [Hx H].
      destruct (IH H) as (name & sites & behind & -> & Hn & Hne & Hs).
      exists (String x name), sites, behind. simpl. rewrite Hx, Hn.
      now repeat split.
Qed.

(** [has_form] is the form stated as a decomposition. *)
Lemma has_form_intro (name sites behind : string) :
  name <> EmptyString -> str_forall on_line name = true ->
  sites <> EmptyString -> str_forall on_line sites = true ->
  has_form (name ++ " (" ++ sites ++ ")" ++ behind) = true.
Proof.
  intros Hne Hname Hnes Hsites. destruct name as [|x name]; [contradiction|].
  simpl in Hname. apply andb_true_iff in Hname. destruct Hname as [Hx Hname].
  pose proof (name_part_intro name sites behind Hname Hnes Hsites) as N.
  cbn [append has_form] in *. now rewrite Hx, N.
Qed.

Lemma has_form_elim (i : string) :
  has_form i = true ->
  exists name sites behind,
    i = (name ++ " (" ++ sites ++ ")" ++ behind)%string
    /\ name <> EmptyString /\ str_forall on_line name = true
    /\ sites <> EmptyString /\ str_forall on_line sites = true.
Proof.
  destruct i as [|x s]; [discriminate|]. cbn [has_form]. intro H.
  apply andb_true_iff in H. destruct H as [Hx H].
  destruct (name_part_elim _ H) as (name & sites & behind & -> & Hn & Hne & Hs).
  exists (String x name), sites, behind. simpl. rewrite Hx, Hn.
  repeat split; [discriminate|assumption|assumption].
Qed.

Lemma read_as_has_form (i : string) (p : pot_mod) :
  read_as i p -> has_form i = true.
Proof.
  intros (before & behind & -> & Hname & Hsites & Aname & Asites & Hbefore).
  destruct Hbefore as [->|(count & Hcount & Acount & ->)].
  - now apply has_form_intro.
  - rewrite <- str_app_assoc. apply has_form_intro; try assumption.
    + destruct count; [contradiction|discriminate].
    + rewrite !str_forall_app, (digit_on_line _ Acount), Aname. reflexivity.
Qed.

(** The pattern applies to every entry of the form. *)
Lemma match_complete (i : string) :
  has_form i = true -> exists m, Re.re_match Regexes.RE_DYN_MODS i = Some m.
Proof.
  intro H. destruct (has_form_elim _ H) as (name & sites & behind & -> & Hne & Hn & Hnes & Hs).
  unfold Re.re_match, Regexes.RE_DYN_MODS. rewrite run_cat. cbn [Re.run].
  match goal with
  | |- exists m, match ?g with _ => _ end = _ => destruct g as [m'|]
  end; [eauto|].
  now apply declaration_body_complete.
Qed.

(** The pattern applies to the entries of the form and to no other. *)
Lemma match_iff_form (i : string) :
  Re.re_match Regexes.RE_DYN_MODS i = None <-> has_form i = false.
Proof.
  split; intro H.
  - destruct (has_form i) eqn:F; [|reflexivity].
    destruct (match_complete _ F) as [m E]. congruence.
  - destruct (Re.re_match Regexes.RE_DYN_MODS i) as [m|] eqn:E; [|reflexivity].
    apply match_sound, read_as_has_form in E. congruence.
Qed.

Lemma parse_declaration_read (i : string) (p : pot_mod) :
  parse_declaration i = Ok p -> read_as i p.
Proof.
  unfold parse_declaration.
  destruct (Re.re_match Regexes.RE_DYN_MODS i) as [m|] eqn:E; [|discriminate].
  intro H. inversion H; subst p. now apply match_sound.
Qed.

Lemma parse_all_read (l : list string) :
  forallb has_form l = true ->
  exists pool, comprehension parse_declaration l = Ok pool /\ Forall2 read_as l pool.
Proof.
  induction l as [|i l IH]; intro H.
  - exists []. split; [reflexivity|constructor].
  - cbn [forallb] in H. apply andb_true_iff in H. destruct H as [Hi H].
    destruct (IH H) as (pool & E & F).
    destruct (match_complete _ Hi) as [m Em].
    destruct (parse_declaration i) as [p|e] eqn:Ep.
    + exists (p :: pool). simpl. rewrite Ep. simpl. rewrite E. simpl.
      split; [reflexivity|]. constructor; [now apply parse_declaration_read|exact F].
    + unfold parse_declaration in Ep. rewrite Em in Ep. discriminate.
Qed.

Lemma splits_app (s a b : string) :
  In (a, b) (splits s) -> s = (a ++ b)%string.
Proof.
  revert a. induction s as [|x s IH]; intros a H.
  - destruct H as [H|[]]. now inversion H.
  - cbn [splits] in H. destruct H as [H|H]; [now inversion H|].
    apply in_map_iff in H. destruct H as ([a' b'] & E & H).
    inversion E; subst. simpl. now rewrite <- (IH _ H).
Qed.

Lemma before_closing_elim (s t : string) :
  before_closing s = Some t -> s = (t ++ ")")%string.
Proof.
  revert t. induction s as [|x s IH]; intros t H; [discriminate|].
  destruct s as [|y s'].
  - cbn [before_closing] in H. destruct (Ascii.eqb x ")") eqn:E; [|discriminate].
    apply Ascii.eqb_eq in E. inversion H. now subst.
  - change (before_closing (String x (String y s')))
      with (option_map (String x) (before_closing (String y s'))) in H.
    destruct (before_closing (String y s')) as [t'|]; [|discriminate].
    inversion H. simpl. now rewrite <- (IH t' eq_refl).
Qed.

Lemma in_parentheses_elim (s t : string) :
  in_parentheses s = Some t -> s = (" (" ++ t ++ ")")%string.
Proof.
  destruct s as [|a [|b s]]; try discriminate. cbn [in_parentheses].
  destruct (Ascii.eqb a " ") eqn:Ea; [|discriminate].
  destruct (Ascii.eqb b "(") eqn:Eb; [|discriminate].
  apply Ascii.eqb_eq in Ea, Eb. subst a b. cbn [andb]. intro H.
  now rewrite (before_closing_elim _ _ H).
Qed.

Lemma site_list_nonempty (s : string) : site_list s = true -> s <> EmptyString.
Proof. intros H ->. discriminate. Qed.

(** An entry written as the specification words it, on one line, has the
    form of the pattern. *)
Lemma well_formed_has_form (i : string) :
  well_formed i = true -> str_forall on_line i = true -> has_form i = true.
Proof.
  unfold well_formed. intros H Hline. apply existsb_exists in H.
  destruct H as ([name rest] & Hin & H).
  apply andb_true_iff in H. destruct H as [Hname H].
  destruct (in_parentheses rest) as [sites|] eqn:E; [|discriminate].
  apply splits_app in Hin. apply in_parentheses_elim in E. subst rest i.
  rewrite !str_forall_app in Hline.
  apply andb_true_iff in Hline. destruct Hline as [Ln Hline].
  apply andb_true_iff in Hline. destruct Hline as [_ Hline].
  apply andb_true_iff in Hline. destruct Hline as [Ls _].
  change (has_form (name ++ " (" ++ sites ++ ")" ++ "") = true).
  apply has_form_intro; try assumption.
  - intros ->. discriminate.
  - now apply site_list_nonempty.
Qed.

(** C6, counterexample.  Entries that are not of the form "[count ]name
    (site-list)" of the specification, whose site list is a run of
    residue letters or one of the two terminal tokens, are taken without
    any error: a site list with a comma and a space in it, and text behind
    the closing parenthesis.  [_get_peptide_queries] returns its record,
    with the comma and the space among the residues of the entry. *)
Lemma declarations_outside_the_form_pass :
  well_formed "Oxidation (M, W)" = false
  /\ parse_declaration "Oxidation (M, W)" = Ok ("Oxidation", "M, W")%string
  /\ well_formed "2 Oxidation (M) optional" = false
  /\ parse_declaration "2 Oxidation (M) optional" = Ok ("Oxidation", "M")%string
  /\ match _get_peptide_queries Samples.labelled
             ["TMT6plex (N-term)"]%string
             ["Oxidation (M, W)"; "Phospho (STY) optional"]%string with
     | Ok [q] =>
         Search.pep_var_mods q
         = [(2, "Oxidation"%string, PyTuple ["M"; ","; " "; "W"]%string);
            (1, "Phospho"%string, PyTuple ["S"; "T"; "Y"]%string)]
     | _ => False
     end.
Proof. vm_compute. repeat split; reflexivity. Qed.

(** C6, amended.  [_get_peptide_queries] aborts on its declarations, with
    the [AttributeError] of a [group] asked of [None], exactly when one
    entry of the two raw lists lacks the form of the pattern: a character,
    then a space and an opening parenthesis, then a character and a
    closing parenthesis, all on the first line ([has_form], which asks
    nothing of the site list and nothing of what follows the parenthesis).
    When every entry has the form, on ASCII text, nothing is dropped: each
    entry of each list is read as one specification, in the order of the
    list, and the rows are resolved against these two pools, whatever the
    cursor.  An entry that the specification would call well formed, on
    one line, has the form. *)
Theorem malformed_declaration_aborts :
  forall fixed_mods var_mods : list string,
    (Exists (fun i => has_form i = false) (fixed_mods ++ var_mods) ->
     forall c : cursor,
       _get_peptide_queries c fixed_mods var_mods = Raise AttributeError)
    /\ (forallb has_form (fixed_mods ++ var_mods) = true ->
        Forall (fun i => str_forall is_ascii i = true) (fixed_mods ++ var_mods) ->
        exists fixed_pool var_pool : list pot_mod,
          Forall2 read_as fixed_mods fixed_pool
          /\ Forall2 read_as var_mods var_pool
          /\ forall c : cursor,
               _get_peptide_queries c fixed_mods var_mods
               = (out <- for_each (row_step c var_pool fixed_pool) (peptide_rows c) [] ;;
                  Ok (Collections.sorted Search.scan out)))
    /\ (forall i : string,
          well_formed i = true -> str_forall on_line i = true -> has_form i = true).
Proof.
  intros fixed_mods var_mods. split; [|split].
  - intros H c. apply Exists_exists in H. destruct H as (i & Hin & Hno).
    apply match_iff_form in Hno. unfold _get_peptide_queries.
    apply in_app_or in Hin. destruct Hin as [Hin|Hin].
    + now rewrite (parse_all_raise _ _ Hin Hno).
    + destruct (parse_all_total fixed_mods) as [[pool E]|E]; rewrite E; simpl;
        [|reflexivity].
      now rewrite (parse_all_raise _ _ Hin Hno).
  - intros H _. rewrite forallb_app in H. apply andb_true_iff in H.
    destruct H as [Hf Hv].
    destruct (parse_all_read _ Hf) as (fixed_pool & Ef & Ff).
    destruct (parse_all_read _ Hv) as (var_pool & Ev & Fv).
    exists fixed_pool, var_pool. split; [exact Ff|split; [exact Fv|]].
    intro c. unfold _get_peptide_queries. rewrite Ef. simpl. rewrite Ev. reflexivity.
  - exact well_formed_has_form.
Qed.

Lemma malformed_declaration_aborts_witness :
  Exists (fun i => has_form i = false)
    (List.app ["Carbamidomethyl (C)"; "TMT6plex [N-term]"]%string
       ["Oxidation (M)"]%string)
  /\ _get_peptide_queries Samples.labelled
       ["Carbamidomethyl (C)"; "TMT6plex [N-term]"]%string ["Oxidation (M)"]%string
     = Raise AttributeError.
Proof.
  assert (Exists (fun i => has_form i = false)
            (List.app ["Carbamidomethyl (C)"; "TMT6plex [N-term]"]%string
               ["Oxidation (M)"]%string))
    as H.
  { apply Exists_cons_tl, Exists_cons_hd. reflexivity. }
  split; [exact H|].
  exact (proj1 (malformed_declaration_aborts
                  ["Carbamidomethyl (C)"; "TMT6plex [N-term]"]%string
                  ["Oxidation (M)"]%string) H Samples.labelled).
Defined.
